(** * clean_parsed_conversations.py: the record cleaner, embedded and verified

    The program reads a JSON array of message objects, drops the messages
    with empty content, repairs and normalises their [timestamp] field, and
    writes the result.  This file embeds [numeric_ts_to_iso],
    [clean_messages] and [main] together with the parts of Python they call
    ([dict.get], [in], [isinstance], [datetime.fromtimestamp],
    [datetime.replace], [datetime.isoformat], [str.replace]) and proves the
    properties of the specification against that embedding.

    - Python values are the ones [json.load] produces: [None], [bool], [int]
      (unbounded, here [Z]), [float] (IEEE binary64, here [spec_float] with
      the operations at precision 53), [str], [list] and [dict] with string
      keys (here a [gmap], whose equality is Python's [==] on dicts).
    - An exception is an explicit result [Raise e]; a function that can
      raise returns a [result].
    - [datetime.fromtimestamp] splits a float with [modf], rounds its
      fraction to microseconds, ties to even, and converts the seconds with
      the host's [gmtime], here with a 64-bit [time_t] and a C [int] for
      the year; the [datetime] constructor accepts the years 1 to 9999.
      The whole second that results is given in closed form, on the exact
      value of the float, by [Spec.rounded_second].
    - [clean_messages] is given twice: on values, where the loop body maps a
      record to the record it appends, and on references into a store of
      dicts, where it updates the dicts in place.  The second run is shown
      to compute the values of the first. *)

From Stdlib Require Import ZArith Lia String Ascii List Bool.
From Stdlib Require Import Floats.SpecFloat.
From Stdlib Require Import DecimalString DecimalPos DecimalN.
From stdpp Require Import gmap strings list fin_maps functions.

#[local] Set Warnings "-register-all".
#[local] Open Scope string_scope.

(** ** Python values and exceptions *)

Inductive pyval : Type :=
  | VNone
  | VBool (b : bool)
  | VInt (n : Z)
  | VFloat (f : spec_float)
  | VStr (s : string)
  | VList (l : list pyval)
  | VDict (d : gmap string pyval).

(** A message record is a [dict] with string keys. *)
Abbreviation record := (gmap string pyval).

(** The exceptions the modelled calls can raise.  [OSError] is what
    [gmtime] reports (errno [EOVERFLOW]) for a second whose year does not
    fit a C [int]. *)
Inductive exn : Type :=
  | AttributeError
  | ValueError
  | OverflowError
  | OSError.

Inductive result (A : Type) : Type :=
  | Ok (a : A)
  | Raise (e : exn).
Arguments Ok {A} a.
Arguments Raise {A} e.

#[global] Instance result_ret : MRet result := λ A a, Ok a.
#[global] Instance result_bind : MBind result := λ A B k r,
  match r with
  | Ok a => k a
  | Raise e => Raise e
  end.

(** ** The proleptic Gregorian calendar, as [gmtime] computes it *)

Module Calendar.
#[local] Open Scope Z_scope.

(** Civil date of a day count relative to 1970-01-01 (days may be negative).
    The year is split in 400-year eras of 146097 days that start on 1 March. *)
Definition civil_from_days (z : Z) : Z * Z * Z :=
  let z := z + 719468 in
  let era := z / 146097 in
  let doe := z - era * 146097 in
  let yoe := (doe - doe / 1460 + doe / 36524 - doe / 146096) / 365 in
  let y := yoe + era * 400 in
  let doy := doe - (365 * yoe + yoe / 4 - yoe / 100) in
  let mp := (5 * doy + 2) / 153 in
  let d := doy - (153 * mp + 2) / 5 + 1 in
  let m := if mp <? 10 then mp + 3 else mp - 9 in
  (if m <=? 2 then y + 1 else y, m, d).

(** The inverse: day count of a civil date. *)
Definition days_from_civil (y m d : Z) : Z :=
  let y := if m <=? 2 then y - 1 else y in
  let era := y / 400 in
  let yoe := y - era * 400 in
  let mp := if 2 <? m then m - 3 else m + 9 in
  let doy := (153 * mp + 2) / 5 + d - 1 in
  let doe := yoe * 365 + yoe / 4 - yoe / 100 + doy in
  era * 146097 + doe - 719468.

(** [struct_time] of [time.gmtime(t)]: year, month, day, hour, minute, second. *)
Record struct_time : Type := mk_tm {
  tm_year : Z; tm_mon : Z; tm_mday : Z;
  tm_hour : Z; tm_min : Z; tm_sec : Z
}.

Definition gmtime_fields (t : Z) : struct_time :=
  let days := t / 86400 in
  let rem := t mod 86400 in
  let '(y, m, d) := civil_from_days days in
  mk_tm y m d (rem / 3600) (rem mod 3600 / 60) (rem mod 60).

(** The host limits: [time_t] is a signed 64-bit count and [tm_year]
    (years since 1900) a C [int].  A second outside [time_t] is refused with
    [OverflowError] before [gmtime] is called; [gmtime] itself fails with
    [OSError] when the year does not fit. *)
Definition time_t_min : Z := - 2 ^ 63.
Definition time_t_max : Z := 2 ^ 63 - 1.
Definition int_min : Z := - 2 ^ 31.
Definition int_max : Z := 2 ^ 31 - 1.

Definition gmtime (t : Z) : result struct_time :=
  if (t <? time_t_min) || (time_t_max <? t) then Raise OverflowError
  else
    let tm := gmtime_fields t in
    if (tm_year tm - 1900 <? int_min) || (int_max <? tm_year tm - 1900)
    then Raise OSError
    else Ok tm.

End Calendar.

(** ** Python floats (binary64) *)

Module PyFloat.
#[local] Open Scope Z_scope.

Definition prec : Z := 53.
Definition emax : Z := 1024.

(** The literal [1e6], exactly representable: 15625 * 2^6. *)
Definition f_1e6 : spec_float := S754_finite false 15625 6.

Definition fmul (x y : spec_float) : spec_float := SFmul prec emax x y.

(** [math.modf(x)]: the fractional part, a float with the sign of [x], and
    the integral part.  Both are exact.  The integral part is a float whose
    value is an integer; it is kept as that integer.  [None] stands for the
    infinities and NaN, which have no integral part to keep. *)
Definition modf (x : spec_float) : option (spec_float * Z) :=
  match x with
  | S754_zero s => Some (S754_zero s, 0)
  | S754_finite s m e =>
      if 0 <=? e then Some (S754_zero s, cond_Zopp s (Zpos m * 2 ^ e))
      else
        let q := Zpos m / 2 ^ (- e) in
        let r := Zpos m mod 2 ^ (- e) in
        let frac := match r with
                    | Zpos r' => S754_finite s r' e
                    | _ => S754_zero s
                    end in
        Some (frac, cond_Zopp s q)
  | S754_infinity _ | S754_nan => None
  end.

(** [round(y)] for a finite float: the nearest integer, ties to even. *)
Definition round_half_even (y : spec_float) : option Z :=
  match y with
  | S754_zero _ => Some 0
  | S754_finite s m e =>
      if 0 <=? e then Some (cond_Zopp s (Zpos m * 2 ^ e))
      else
        let d := 2 ^ (- e) in
        let q := Zpos m / d in
        let r := Zpos m mod d in
        let q' := match 2 * r ?= d with
                  | Lt => q
                  | Gt => q + 1
                  | Eq => if Z.even q then q else q + 1
                  end in
        Some (cond_Zopp s q')
  | S754_infinity _ | S754_nan => None
  end.

End PyFloat.

(** ** Rounding, as [SpecFloat] performs it

    The vocabulary for the proofs about the float product: the nearest
    integer with ties to even, the state of a mantissa that is being
    shifted right, and a float given by a mantissa that may be zero. *)

Module Rounding.
#[local] Open Scope Z_scope.

(** The integer nearest to [q + ρ / B], for [0 <= ρ < B]; ties go to the
    even one. *)
Definition nearest_even (q ρ B : Z) : Z :=
  match 2 * ρ ?= B with
  | Lt => q
  | Eq => if Z.even q then q else q + 1
  | Gt => q + 1
  end.

(** The record [mrs] is [m] shifted right: [m = shr_m * B + ρ], and the two
    flags place the lost part [ρ] against half of [B]. *)
Definition shifted (m B : Z) (mrs : shr_record) : Prop :=
  ∃ ρ, m = shr_m mrs * B + ρ ∧ 0 <= ρ < B ∧ 0 <= shr_m mrs
       ∧ shr_r mrs = (B <=? 2 * ρ)
       ∧ shr_s mrs = negb ((ρ =? 0) || (2 * ρ =? B)).

(** A float given by a mantissa that may be zero. *)
Definition float_of (s : bool) (K f : Z) : spec_float :=
  match K with
  | Z0 => S754_zero s
  | Zpos m => S754_finite s m f
  | Zneg _ => S754_nan
  end.

End Rounding.

(** ** Strings: number formatting and [str.replace] *)

Module PyStr.

Definition digit_char (d : Z) : ascii := ascii_of_nat (48 + Z.to_nat d).

(** The [w] low decimal digits of [n], most significant first.  This is
    ["%0wd" % n] for [0 <= n < 10^w], which is where [isoformat] uses it:
    the [datetime] constructor bounds every field. *)
Fixpoint fmt_digits (w : nat) (n : Z) : string :=
  match w with
  | O => ""
  | S w' => fmt_digits w' (n / 10) ++ String (digit_char (n mod 10)) ""
  end.

Fixpoint starts_with (p s : string) : bool :=
  match p, s with
  | EmptyString, _ => true
  | String a p', String b s' => Ascii.eqb a b && starts_with p' s'
  | String _ _, EmptyString => false
  end.

(** [s.replace(old, new)] for a non-empty [old]: scan left to right, at each
    occurrence emit [new] and skip the rest of the occurrence. *)
Fixpoint replace_from (old new : string) (skip : nat) (s : string) : string :=
  match s with
  | EmptyString => EmptyString
  | String c s' =>
      match skip with
      | S k => replace_from old new k s'
      | O =>
          if starts_with old s
          then new ++ replace_from old new (String.length old - 1) s'
          else String c (replace_from old new 0 s')
      end
  end.

Definition replace (old new s : string) : string := replace_from old new 0 s.

End PyStr.

(** ** [datetime], restricted to aware values in [timezone.utc] *)

Module Datetime.
Import Calendar PyFloat PyStr.
#[local] Open Scope Z_scope.

Record datetime : Type := mk_datetime {
  year : Z; month : Z; day : Z;
  hour : Z; minute : Z; second : Z;
  microsecond : Z
}.

Definition MINYEAR : Z := 1.
Definition MAXYEAR : Z := 9999.

(** The constructor [datetime(y, m, d, hh, mm, ss, us, tz)]; the fields other
    than the year come from [gmtime] and the microsecond adjustment and are
    in range by construction. *)
Definition new_datetime (y m d hh mm ss us : Z) : result datetime :=
  if (y <? MINYEAR) || (MAXYEAR <? y) then Raise ValueError
  else Ok (mk_datetime y m d hh mm ss us).

(** The argument of [fromtimestamp]: an [int] (a [bool] is an [int]) or a
    [float]. *)
Inductive number : Type :=
  | NInt (n : Z)
  | NFloat (f : spec_float).

(** Whole seconds and microseconds of a timestamp.  A float is split with
    [modf], its fraction scaled by [1e6] in float arithmetic and rounded
    half-to-even, and a carry or borrow moved into the seconds:
<<
        frac, t = _math.modf(t)
        us = round(frac * 1e6)
        if us >= 1000000:
            t += 1
            us -= 1000000
        elif us < 0:
            t -= 1
            us += 1000000
>>
    NaN raises [ValueError] and an infinity [OverflowError]. *)
Definition timestamp_parts (ts : number) : result (Z * Z) :=
  match ts with
  | NInt n => Ok (n, 0)
  | NFloat x =>
      match x with
      | S754_nan => Raise ValueError
      | S754_infinity _ => Raise OverflowError
      | _ =>
          match modf x with
          | None => Raise OverflowError
          | Some (frac, t) =>
              match round_half_even (fmul frac f_1e6) with
              | None => Raise OverflowError
              | Some us =>
                  if 1000000 <=? us then Ok (t + 1, us - 1000000)
                  else if us <? 0 then Ok (t - 1, us + 1000000)
                  else Ok (t, us)
              end
          end
      end
  end.

(** [datetime.fromtimestamp(ts, tz=timezone.utc)].  [timezone.utc.fromutc]
    adds a zero offset and is the identity. *)
Definition fromtimestamp_utc (ts : number) : result datetime :=
  '(t, us) ← timestamp_parts ts;
  tm ← gmtime t;
  new_datetime (tm_year tm) (tm_mon tm) (tm_mday tm)
               (tm_hour tm) (tm_min tm) (Z.min 59 (tm_sec tm)) us.

(** [dt.replace(microsecond=us)] *)
Definition replace_microsecond (dt : datetime) (us : Z) : datetime :=
  mk_datetime (year dt) (month dt) (day dt)
              (hour dt) (minute dt) (second dt) us.

(** [dt.isoformat()] of an aware UTC value: date, ['T'], time, with the
    microseconds only when they are not zero, and the offset [+00:00]. *)
Definition isoformat (dt : datetime) : string :=
  (fmt_digits 4 (year dt) ++ "-" ++ fmt_digits 2 (month dt) ++ "-"
   ++ fmt_digits 2 (day dt) ++ "T"
   ++ fmt_digits 2 (hour dt) ++ ":" ++ fmt_digits 2 (minute dt) ++ ":"
   ++ fmt_digits 2 (second dt)
   ++ (if Z.eqb (microsecond dt) 0 then "" else "." ++ fmt_digits 6 (microsecond dt))
   ++ "+00:00")%string.

End Datetime.

(** ** The cleaner: [clean_parsed_conversations.py] *)

Module Cleaner.
Import Datetime PyStr.

(** [d.get(k, dflt)] on a dict. *)
Definition dict_get (d : record) (k : string) (dflt : pyval) : pyval :=
  default dflt (d !! k).

(** [v.get(k)] on an arbitrary value: only a dict has the method. *)
Definition py_get (v : pyval) (k : string) : result pyval :=
  match v with
  | VDict d => Ok (dict_get d k VNone)
  | _ => Raise AttributeError
  end.

(** The constants the code compares with: [None] and string literals. *)
Inductive literal : Type :=
  | LNone
  | LStr (s : string).

(** [v == c] for such a constant [c]: values of another type are unequal. *)
Definition py_eq (v : pyval) (c : literal) : bool :=
  match v, c with
  | VNone, LNone => true
  | VStr s, LStr s' => String.eqb s s'
  | _, _ => false
  end.

(** [v in (c1, ..., cn)] *)
Definition py_in (v : pyval) (cs : list literal) : bool :=
  existsb (py_eq v) cs.

(** [isinstance(v, (int, float))], with the number [v] then is; [bool] is a
    subclass of [int]. *)
Definition isinstance_int_float (v : pyval) : option number :=
  match v with
  | VBool b => Some (NInt (if b then 1 else 0))
  | VInt n => Some (NInt n)
  | VFloat f => Some (NFloat f)
  | _ => None
  end.

Definition is_None (v : pyval) : bool :=
  match v with
  | VNone => true
  | _ => false
  end.

(** <<
def numeric_ts_to_iso(ts):
    return datetime.fromtimestamp(ts, tz=timezone.utc).replace(microsecond=0)
                   .isoformat().replace("+00:00", "Z")
>> *)
Definition numeric_ts_to_iso (ts : number) : result string :=
  dt ← fromtimestamp_utc ts;
  Ok (replace "+00:00" "Z" (isoformat (replace_microsecond dt 0))).

(** The test of the content filter: [msg.get("content", "") == ""]. *)
Definition has_empty_content (msg : record) : bool :=
  py_eq (dict_get msg "content" (VStr "")) (LStr "").

(** The timestamp fallback:
<<
        ts = msg.get("timestamp")
        if ts in (None, "", "null"):
            ts = msg.get("metadata", {}).get("conversation_create_time")
>> *)
Definition fallback_timestamp (msg : record) : result pyval :=
  let ts := dict_get msg "timestamp" VNone in
  if py_in ts [LNone; LStr ""; LStr "null"]
  then py_get (dict_get msg "metadata" (VDict ∅)) "conversation_create_time"
  else Ok ts.

(** The normalisation, which updates [msg]:
<<
        if isinstance(ts, (int, float)):
            ts_iso = numeric_ts_to_iso(ts)
            msg["timestamp"] = ts_iso
        elif ts is None:
            msg.pop("timestamp", None)
>> *)
Definition normalise_timestamp (msg : record) (ts : pyval) : result record :=
  match isinstance_int_float ts with
  | Some n =>
      ts_iso ← numeric_ts_to_iso n;
      Ok (<["timestamp" := VStr ts_iso]> msg)
  | None =>
      if is_None ts then Ok (delete "timestamp" msg) else Ok msg
  end.

(** The body of the loop of [clean_messages] for one message: [None] is the
    [continue], [Some msg'] the message that is appended. *)
Definition clean_message (msg : record) : result (option record) :=
  if has_empty_content msg then Ok None
  else
    ts ← fallback_timestamp msg;
    msg ← normalise_timestamp msg ts;
    Ok (Some msg).

(** The loop, with the accumulator [cleaned]. *)
Fixpoint clean_loop (messages cleaned : list record) : result (list record) :=
  match messages with
  | [] => Ok cleaned
  | msg :: rest =>
      o ← clean_message msg;
      clean_loop rest (match o with
                       | Some msg' => cleaned ++ [msg']
                       | None => cleaned
                       end)
  end.

Definition clean_messages (messages : list record) : result (list record) :=
  clean_loop messages [].

End Cleaner.

(** ** The same loop on objects in a store

    [clean_messages] updates each dict in place and appends to [cleaned] the
    very object it took from [messages].  Here a message is a reference into
    a store of dicts, and the statements of the loop body act on the store.
    The same reference may occur more than once in [messages].  Only the
    dicts that are messages are updated, so the values nested in them are
    kept as values. *)

Module InPlace.
Import Cleaner.

Abbreviation ref := nat.
Abbreviation store := (ref → record).

(** One iteration on the object [msg]; the flag tells whether [msg] is
    appended to [cleaned].
<<
        if msg.get("content", "") == "":
            continue
        ts = msg.get("timestamp")
        if ts in (None, "", "null"):
            ts = msg.get("metadata", {}).get("conversation_create_time")
        if isinstance(ts, (int, float)):
            ts_iso = numeric_ts_to_iso(ts)
            msg["timestamp"] = ts_iso
        elif ts is None:
            msg.pop("timestamp", None)
        cleaned.append(msg)
>> *)
Definition clean_step (σ : store) (msg : ref) : result (store * bool) :=
  if has_empty_content (σ msg) then Ok (σ, false)
  else
    ts ← fallback_timestamp (σ msg);
    σ' ← match isinstance_int_float ts with
         | Some n =>
             ts_iso ← numeric_ts_to_iso n;
             Ok (<[msg := <["timestamp" := VStr ts_iso]> (σ msg)]> σ)
         | None =>
             if is_None ts then Ok (<[msg := delete "timestamp" (σ msg)]> σ)
             else Ok σ
         end;
    Ok (σ', true).

Fixpoint clean_loop (σ : store) (messages cleaned : list ref)
  : result (store * list ref) :=
  match messages with
  | [] => Ok (σ, cleaned)
  | msg :: rest =>
      '(σ', appended) ← clean_step σ msg;
      clean_loop σ' rest (if appended : bool then cleaned ++ [msg] else cleaned)
  end.

Definition clean_messages (σ : store) (messages : list ref)
  : result (store * list ref) :=
  clean_loop σ messages [].

End InPlace.

(** ** The vocabulary of the specification *)

Module Spec.
Import Calendar PyFloat Datetime Cleaner.
#[local] Open Scope Z_scope.

(** A record survives when the content filter does not drop it. *)
Definition survives (msg : record) : bool := negb (has_empty_content msg).

(** The input [timestamp] is missing, null, the empty string or ["null"]. *)
Definition timestamp_unusable (msg : record) : Prop :=
  msg !! "timestamp" = None ∨ msg !! "timestamp" = Some VNone
  ∨ msg !! "timestamp" = Some (VStr "") ∨ msg !! "timestamp" = Some (VStr "null").

(** [metadata.conversation_create_time], when [metadata] is a mapping that
    has the key. *)
Definition conversation_create_time (msg : record) : option pyval :=
  match msg !! "metadata" with
  | Some (VDict d) => d !! "conversation_create_time"
  | _ => None
  end.

(** [metadata] is absent or a mapping. *)
Definition metadata_is_mapping (msg : record) : bool :=
  match msg !! "metadata" with
  | None | Some (VDict _) => true
  | Some _ => false
  end.

Definition is_digit (c : ascii) : bool :=
  let n := nat_of_ascii c in (48 <=? n)%nat && (n <=? 57)%nat.

Definition digit_val (c : ascii) : Z := Z.of_nat (nat_of_ascii c) - 48.

Definition num2 (a b : ascii) : Z := 10 * digit_val a + digit_val b.

Definition num4 (a b c d : ascii) : Z :=
  1000 * digit_val a + 100 * digit_val b + 10 * digit_val c + digit_val d.

(** The string has the shape [YYYY-MM-DDTHH:MM:SSZ]. *)
Definition matches_iso_format (s : string) : bool :=
  match list_ascii_of_string s with
  | [y1; y2; y3; y4; c1; m1; m2; c2; d1; d2; c3;
     h1; h2; c4; n1; n2; c5; s1; s2; c6] =>
      forallb is_digit [y1; y2; y3; y4; m1; m2; d1; d2; h1; h2; n1; n2; s1; s2]
      && Ascii.eqb c1 "-" && Ascii.eqb c2 "-" && Ascii.eqb c3 "T"
      && Ascii.eqb c4 ":" && Ascii.eqb c5 ":" && Ascii.eqb c6 "Z"
  | _ => false
  end.

(** A civil date exists in the calendar when converting it to a day count
    and back returns it. *)
Definition valid_date (y m d : Z) : bool :=
  let '(y', m', d') := civil_from_days (days_from_civil y m d) in
  (y' =? y) && (m' =? m) && (d' =? d).

(** The inverse ISO parse: the epoch second a [YYYY-MM-DDTHH:MM:SSZ] string
    denotes in UTC, when it is well formed and names an existing date and
    time of day. *)
Definition parse_iso_utc (s : string) : option Z :=
  match list_ascii_of_string s with
  | [y1; y2; y3; y4; _; m1; m2; _; d1; d2; _;
     h1; h2; _; n1; n2; _; s1; s2; _] =>
      let y := num4 y1 y2 y3 y4 in
      let m := num2 m1 m2 in
      let d := num2 d1 d2 in
      let hh := num2 h1 h2 in
      let mm := num2 n1 n2 in
      let ss := num2 s1 s2 in
      if matches_iso_format s && valid_date y m d
         && (hh <? 24) && (mm <? 60) && (ss <? 60)
      then Some (days_from_civil y m d * 86400 + hh * 3600 + mm * 60 + ss)
      else None
  | _ => None
  end.

(** The text [YYYY-MM-DDTHH:MM:SSZ] of a date and a time of day. *)
Definition iso_text (y m d hh mm ss : Z) : string :=
  (PyStr.fmt_digits 4 y ++ "-" ++ PyStr.fmt_digits 2 m ++ "-"
   ++ PyStr.fmt_digits 2 d ++ "T" ++ PyStr.fmt_digits 2 hh ++ ":"
   ++ PyStr.fmt_digits 2 mm ++ ":" ++ PyStr.fmt_digits 2 ss ++ "Z")%string.

(** The text of the whole second [t] of the epoch, read in UTC. *)
Definition iso_of_seconds (t : Z) : string :=
  let tm := gmtime_fields t in
  iso_text (tm_year tm) (tm_mon tm) (tm_mday tm)
           (tm_hour tm) (tm_min tm) (tm_sec tm).

(** The value of a finite float rounded down, and rounded towards zero. *)
Definition float_floor (x : spec_float) : option Z :=
  match x with
  | S754_zero _ => Some 0
  | S754_finite s m e =>
      Some (if 0 <=? e then cond_Zopp s (Zpos m * 2 ^ e)
            else cond_Zopp s (Zpos m) / 2 ^ (- e))
  | S754_infinity _ | S754_nan => None
  end.

Definition float_trunc (x : spec_float) : option Z :=
  match x with
  | S754_zero _ => Some 0
  | S754_finite s m e =>
      Some (if 0 <=? e then cond_Zopp s (Zpos m * 2 ^ e)
            else cond_Zopp s (Zpos m / 2 ^ (- e)))
  | S754_infinity _ | S754_nan => None
  end.

(** A numeric timestamp truncated to whole epoch seconds. *)
Definition whole_seconds (ts : number) : option Z :=
  match ts with
  | NInt n => Some n
  | NFloat x => float_floor x
  end.

(** The exact value of a finite float, as an integer [n] over a power of
    two [d]: the float is [n / d]. *)
Definition float_ratio (x : spec_float) : option (Z * Z) :=
  match x with
  | S754_zero _ => Some (0, 1)
  | S754_finite s m e =>
      Some (if 0 <=? e then (cond_Zopp s (Zpos m * 2 ^ e), 1)
            else (cond_Zopp s (Zpos m), 2 ^ (- e)))
  | S754_infinity _ | S754_nan => None
  end.

(** The value [n / d] lies at most half a microsecond below the whole
    second [c]: [c - n / d <= (1/2 + 2^-k) / 10^6].  Half a microsecond is
    exceeded by the [2^-k] of a microsecond that the rounding of the scaled
    fraction to 53 bits gives away: [k = 34] for a value that is not
    negative (the scaled fraction is then just below [10^6]) and [k = 54]
    for a negative one (it is then just above [1/2]). *)
Definition within_half_microsecond (n d c : Z) : bool :=
  let k := if 0 <=? n then 34 else 54 in
  (c * d - n) * 1000000 * 2 ^ k <=? (2 ^ (k - 1) + 1) * d.

(** The whole second a numeric timestamp stands for once it is rounded to
    microseconds: an integer is its own second; a float is at its floor,
    unless it lies within half a microsecond below the next whole second,
    which it then is rounded up to. *)
Definition rounded_second (ts : number) : option Z :=
  match ts with
  | NInt n => Some n
  | NFloat x =>
      match float_ratio x with
      | Some (n, d) =>
          let c := - ((- n) / d) in
          Some (if within_half_microsecond n d c then c else n / d)
      | None => None
      end
  end.

(** The whole second [t] a timestamp is converted at. *)
Definition converted_second (ts : number) (t : Z) : Prop :=
  rounded_second ts = Some t.


(** The first and the last second [datetime] can hold:
    0001-01-01T00:00:00Z and 9999-12-31T23:59:59Z. *)
Definition min_timestamp : Z := -62135596800.
Definition max_timestamp : Z := 253402300799.

(** The timestamp, rounded to microseconds as [fromtimestamp] does, lies in
    the years 1 to 9999. *)
Definition in_datetime_range (ts : number) : bool :=
  match timestamp_parts ts with
  | Ok (t, _) => (min_timestamp <=? t) && (t <=? max_timestamp)
  | Raise _ => false
  end.

(** The fallback is consulted: the input [timestamp] is missing, null, the
    empty string or ["null"]. *)
Definition fallback_consulted (msg : record) : bool :=
  match msg !! "timestamp" with
  | None | Some VNone => true
  | Some (VStr s) => String.eqb s "" || String.eqb s "null"
  | Some _ => false
  end.

(** The working timestamp of the specification: the record's own, or
    [metadata.conversation_create_time] when the fallback is consulted. *)
Definition working_timestamp (msg : record) : option pyval :=
  if fallback_consulted msg then conversation_create_time msg
  else msg !! "timestamp".

(** A value that is not numeric, or a number in [datetime]'s range. *)
Definition convertible (v : pyval) : bool :=
  match isinstance_int_float v with
  | Some n => in_datetime_range n
  | None => true
  end.

(** A record the cleaner tolerates: it is dropped, or its [metadata] is
    absent or a mapping when the fallback is consulted, and its working
    timestamp, when numeric, is in [datetime]'s range. *)
Definition tolerated (msg : record) : bool :=
  negb (survives msg)
  || ((negb (fallback_consulted msg) || metadata_is_mapping msg)
      && match working_timestamp msg with
         | Some v => convertible v
         | None => true
         end).

(** [msg'] is what the loop body appends for [msg]. *)
Definition cleaned_as (msg msg' : record) : Prop :=
  clean_message msg = Ok (Some msg').

(** The three ways the loop body leaves a message it keeps, by the working
    timestamp [ts]: converted, removed, or left as it is. *)
Inductive kept (msg : record) (ts : pyval) (msg' : record) : Prop :=
  | kept_converted n s :
      isinstance_int_float ts = Some n →
      numeric_ts_to_iso n = Ok s →
      msg' = <["timestamp" := VStr s]> msg →
      kept msg ts msg'
  | kept_removed :
      ts = VNone →
      msg' = delete "timestamp" msg →
      kept msg ts msg'
  | kept_as_is :
      isinstance_int_float ts = None →
      ts ≠ VNone →
      msg' = msg →
      kept msg ts msg'.

(** Each object of the store [σ'] is the object of [σ] or its cleaned form. *)
Definition advances (σ σ' : InPlace.store) : Prop :=
  ∀ l, σ' l = σ l ∨ cleaned_as (σ l) (σ' l).

(** Every field other than [timestamp] is the same in both records. *)
Definition same_other_fields (msg msg' : record) : Prop :=
  ∀ k, k ≠ "timestamp" → msg' !! k = msg !! k.

(** The outcome of the fallback for a record whose [timestamp] is unusable:
    for a numeric [conversation_create_time], the ISO text of the second
    [t] it is converted at, a text that parses back to [t]; and no
    [timestamp] key when there is none, or a null one. *)
Definition fallback_outcome (msg msg' : record) : Prop :=
  timestamp_unusable msg →
  (∀ v n, conversation_create_time msg = Some v →
          isinstance_int_float v = Some n →
          ∃ s t, msg' !! "timestamp" = Some (VStr s)
                 ∧ converted_second n t
                 ∧ s = iso_of_seconds t
                 ∧ matches_iso_format s = true
                 ∧ parse_iso_utc s = Some t)
  ∧ (conversation_create_time msg = None
     ∨ conversation_create_time msg = Some VNone →
     msg' !! "timestamp" = None).

(** What is left in a record of the output: a content that is present and
    not empty, no numeric [timestamp], and a [timestamp] that the fallback
    would consult again only where [metadata.conversation_create_time] is
    absent or null, the record then having no [timestamp] key, or is a
    value that is neither a number nor null, which the cleaner does not
    store. *)
Definition nothing_left_to_clean (msg' : record) : Prop :=
  (msg' !! "content" ≠ None ∧ msg' !! "content" ≠ Some (VStr ""))
  ∧ (∀ v, msg' !! "timestamp" = Some v → isinstance_int_float v = None)
  ∧ (fallback_consulted msg' = true →
     (msg' !! "timestamp" = None
      ∧ (conversation_create_time msg' = None
         ∨ conversation_create_time msg' = Some VNone))
     ∨ (∃ v, conversation_create_time msg' = Some v
             ∧ isinstance_int_float v = None ∧ v ≠ VNone)).

(** The outcome for a record whose [timestamp] is numeric: an ISO text that
    parses back to the second the timestamp is converted at, the timestamp
    rounded to microseconds and cut to whole seconds. *)
Definition numeric_outcome (msg msg' : record) : Prop :=
  ∀ v n, msg !! "timestamp" = Some v →
         isinstance_int_float v = Some n →
         ∃ s t, msg' !! "timestamp" = Some (VStr s)
                ∧ matches_iso_format s = true
                ∧ parse_iso_utc s = Some t
                ∧ converted_second n t.

End Spec.

(** ** Sample inputs *)

Module Examples.
#[local] Open Scope Z_scope.

(** The five scenarios of the specification. *)
Definition scenario_1 : record :=
  {[ "content" := VStr "hi"; "timestamp" := VInt 0 ]}.
Definition scenario_2 : record :=
  {[ "content" := VStr "hi"; "timestamp" := VNone;
     "metadata" := VDict {[ "conversation_create_time" := VInt 1700000000 ]} ]}.
Definition scenario_3 : record :=
  {[ "content" := VStr ""; "timestamp" := VInt 5 ]}.
Definition scenario_4 : record :=
  {[ "content" := VStr "hi" ]}.
Definition scenario_5 : record :=
  {[ "content" := VStr "hi"; "timestamp" := VStr "2021-05-01T00:00:00Z" ]}.

(** The cleaned form of the scenarios 1 and 2. *)
Definition scenario_1_cleaned : record :=
  {[ "content" := VStr "hi"; "timestamp" := VStr "1970-01-01T00:00:00Z" ]}.
Definition scenario_2_cleaned : record :=
  {[ "content" := VStr "hi"; "timestamp" := VStr "2023-11-14T22:13:20Z";
     "metadata" := VDict {[ "conversation_create_time" := VInt 1700000000 ]} ]}.

(** [{"timestamp": 5}]: no [content] key. *)
Definition msg_without_content : record :=
  {[ "timestamp" := VInt 5 ]}.

(** [{"content": "hi", "metadata": null}] *)
Definition msg_null_metadata : record :=
  {[ "content" := VStr "hi"; "metadata" := VNone ]}.

(** [{"content": "hi", "timestamp": 253402300800}]: the first second of the
    year 10000. *)
Definition msg_year_10000 : record :=
  {[ "content" := VStr "hi"; "timestamp" := VInt 253402300800 ]}.

(** [{"content": "hi", "timestamp": null,
      "metadata": {"conversation_create_time": "2021-05-01T00:00:00Z"}}] *)
Definition msg_string_fallback : record :=
  {[ "content" := VStr "hi"; "timestamp" := VNone;
     "metadata" :=
       VDict {[ "conversation_create_time" := VStr "2021-05-01T00:00:00Z" ]} ]}.


(** The float [1 - 2^-21 = 0.999999523162841796875], with its 53-bit
    mantissa. *)
Definition almost_one : spec_float :=
  S754_finite false (2097151 * 2 ^ 32) (-53).

(** [{"content": "hi", "timestamp": 0.9999995231628418}] *)
Definition msg_almost_one : record :=
  {[ "content" := VStr "hi"; "timestamp" := VFloat almost_one ]}.

Definition msg_almost_one_cleaned : record :=
  {[ "content" := VStr "hi"; "timestamp" := VStr "1970-01-01T00:00:01Z" ]}.

(** [{"content": "hi", "timestamp": null,
      "metadata": {"conversation_create_time": 0.9999995231628418}}] *)
Definition msg_fallback_almost_one : record :=
  {[ "content" := VStr "hi"; "timestamp" := VNone;
     "metadata" := VDict {[ "conversation_create_time" := VFloat almost_one ]} ]}.

Definition msg_fallback_almost_one_cleaned : record :=
  {[ "content" := VStr "hi"; "timestamp" := VStr "1970-01-01T00:00:01Z";
     "metadata" := VDict {[ "conversation_create_time" := VFloat almost_one ]} ]}.

(** The floats [0.5] and [1700000000.5]. *)
Definition one_half : spec_float := S754_finite false (2 ^ 52) (-53).
Definition half_past : spec_float :=
  S754_finite false (3400000001 * 2 ^ 21) (-22).

(** [{"content": "hi", "timestamp": 0.5}] and
    [{"content": "hi", "timestamp": 1700000000.5}] *)
Definition msg_one_half : record :=
  {[ "content" := VStr "hi"; "timestamp" := VFloat one_half ]}.
Definition msg_half_past : record :=
  {[ "content" := VStr "hi"; "timestamp" := VFloat half_past ]}.
Definition msg_half_past_cleaned : record :=
  {[ "content" := VStr "hi"; "timestamp" := VStr "2023-11-14T22:13:20Z" ]}.

End Examples.

(** ** Further vocabulary: what a caller can observe *)

Module Observations.
Import PyFloat Datetime Cleaner Spec.
#[local] Open Scope list_scope.
#[local] Open Scope Z_scope.

(** The record has a [content] that is not the empty string. *)
Definition has_content (msg : record) : bool :=
  match msg !! "content" with
  | Some (VStr s) => negb (String.eqb s "")
  | Some _ => true
  | None => false
  end.

(** The record has content and a timestamp of its own that the cleaner
    neither replaces nor converts: present, not a sentinel, not a number. *)
Definition settled (msg : record) : bool :=
  has_content msg
  && negb (fallback_consulted msg)
  && match msg !! "timestamp" with
     | Some v =>
         match isinstance_int_float v with
         | Some _ => false
         | None => true
         end
     | None => false
     end.


(** The result of a run, as a list or the exception, composed with the
    result of a second run. *)
Definition then_append (r1 r2 : result (list record)) : result (list record) :=
  out1 ← r1; out2 ← r2; Ok (out1 ++ out2).



(** What the cleaner does to the [timestamp] of a record it keeps: the key
    is gone, or holds an ISO text that names an existing date and time of
    day in the years 1 to 9999, or the whole record is as it was. *)
Definition timestamp_settled_from (msg msg' : record) : Prop :=
  msg' !! "timestamp" = None
  ∨ (∃ s t, msg' !! "timestamp" = Some (VStr s)
            ∧ matches_iso_format s = true
            ∧ parse_iso_utc s = Some t
            ∧ min_timestamp <= t <= max_timestamp)
  ∨ msg' = msg.

(** Comparison of two lists of fields, the first difference deciding. *)
Fixpoint lex_compare (xs ys : list Z) : comparison :=
  match xs, ys with
  | x :: xs', y :: ys' =>
      match x ?= y with
      | Eq => lex_compare xs' ys'
      | c => c
      end
  | _, _ => Eq
  end.

(** The fields of the whole second [t], in the order they are written. *)
Definition iso_fields (t : Z) : list Z :=
  let tm := Calendar.gmtime_fields t in
  [Calendar.tm_year tm; Calendar.tm_mon tm; Calendar.tm_mday tm;
   Calendar.tm_hour tm; Calendar.tm_min tm; Calendar.tm_sec tm].

(** A store with three objects, for the examples. *)
Definition sample_store : InPlace.store :=
  λ l, match l with
       | O => Examples.scenario_1
       | S O => Examples.scenario_3
       | _ => Examples.scenario_4
       end.

End Observations.

(** ** The script: [main] and the values it hands to [clean_messages]

    [main] calls the host four times: [INPUT_FILE.exists()], [open] with
    [json.load], [open] with [json.dump], and [print].  The host is a
    parameter: it answers each call or lets it raise, and a run is the list
    of the calls made with the way the run ended. *)

Module Script.
Import Cleaner.
#[local] Open Scope list_scope.

(** The exceptions of a run of the script: those of the cleaner, the
    [TypeError] of a [for] over a value that cannot be iterated,
    [FileNotFoundError] with its message, and whatever the host raises from
    [exists], [open], [json.load], [json.dump] or [print]. *)
Inductive script_exn : Type :=
  | Cleaning (e : exn)
  | TypeError
  | FileNotFoundError (message : string)
  | HostError.

Inductive outcome (A : Type) : Type :=
  | Done (a : A)
  | Failed (e : script_exn).
Arguments Done {A} a.
Arguments Failed {A} e.

(** *** [clean_messages] on whatever [json.load] returned *)

(** The items [for msg in messages] goes through: the elements of a list,
    the keys of a dict, the characters of a string; any other value cannot
    be iterated.  (The keys come in the order of the map and the characters
    as bytes; the loop raises on the first of them, whichever it is.) *)
Definition iter_items (messages : pyval) : option (list pyval) :=
  match messages with
  | VList l => Some l
  | VDict d => Some ((λ kv, VStr kv.1) <$> map_to_list d)
  | VStr s => Some ((λ c, VStr (String c EmptyString)) <$> list_ascii_of_string s)
  | _ => None
  end.

(** The loop body on an item: an item that is not a dict has no [get]. *)
Definition clean_item (msg : pyval) : result (option pyval) :=
  match msg with
  | VDict d => o ← clean_message d; Ok (option_map VDict o)
  | _ => Raise AttributeError
  end.

Fixpoint clean_items (items cleaned : list pyval) : result (list pyval) :=
  match items with
  | [] => Ok cleaned
  | msg :: rest =>
      o ← clean_item msg;
      clean_items rest (match o with
                        | Some msg' => cleaned ++ [msg']
                        | None => cleaned
                        end)
  end.

(** [clean_messages(messages)] for an arbitrary value [messages]. *)
Definition clean_messages_any (messages : pyval) : outcome (list pyval) :=
  match iter_items messages with
  | None => Failed TypeError
  | Some items =>
      match clean_items items [] with
      | Ok cleaned => Done cleaned
      | Raise e => Failed (Cleaning e)
      end
  end.

(** An item is an object with a content that is not the empty string. *)
Definition object_with_content (item : pyval) : bool :=
  match item with
  | VDict d =>
      match d !! "content" with
      | Some (VStr s) => negb (String.eqb s "")
      | Some _ => true
      | None => false
      end
  | _ => false
  end.

(** An item is an object with such a content and without a numeric
    [timestamp]. *)
Definition clean_object (item : pyval) : Prop :=
  object_with_content item = true
  ∧ ∀ d v, item = VDict d → d !! "timestamp" = Some v →
           isinstance_int_float v = None.

(** *** Paths *)

(** A path: the text up to and including the last separator, and the final
    component.  [str(p)] is the two put together. *)
Record path : Type := mk_path { dir : string; name : string }.

Definition path_text (p : path) : string := (dir p ++ name p)%string.

(** [p.with_name(n)] *)
Definition with_name (p : path) (n : string) : path := mk_path (dir p) n.

(** <<
INPUT_FILE = pathlib.Path(__file__).with_name("parsed_conversations.json")
OUTPUT_FILE = pathlib.Path(__file__).with_name("parsed_conversations_cleaned.json")
>> *)
Definition INPUT_FILE (file : path) : path :=
  with_name file "parsed_conversations.json".
Definition OUTPUT_FILE (file : path) : path :=
  with_name file "parsed_conversations_cleaned.json".

(** *** The summary line *)

(** [str(n)] for a length. *)
Definition str_of_nat (n : nat) : string :=
  NilZero.string_of_uint (N.to_uint (N.of_nat n)).

(** A comma after every three digits, the digits given from the last to the
    first. *)
Fixpoint group3 (ds : list ascii) : list ascii :=
  match ds with
  | a :: b :: c :: ((_ :: _) as rest) => a :: b :: c :: ","%char :: group3 rest
  | _ => ds
  end.

(** [f"{n:,}"]: the digits of [n] in groups of three from the right. *)
Definition format_thousands (n : nat) : string :=
  string_of_list_ascii
    (rev (group3 (rev (list_ascii_of_string (str_of_nat n))))).

(** [f"Wrote {len(cleaned_messages):,} cleaned messages to {OUTPUT_FILE.name}"] *)
Definition summary (file : path) (cleaned : list pyval) : string :=
  ("Wrote " ++ format_thousands (List.length cleaned)
   ++ " cleaned messages to " ++ name (OUTPUT_FILE file))%string.

(** *** The host and the runs *)

(** The answers of the host: whether a path exists ([None] when [exists]
    itself raises, as it does on a directory that may not be searched), the
    value [json.load] reads from it ([None] when [open] or [json.load]
    raises), whether [open] and [json.dump] complete, and whether [print]
    does. *)
Record host : Type := mk_host {
  path_exists : path → option bool;
  json_load : path → option pyval;
  json_dump : path → pyval → bool;
  print_line : string → bool
}.

Inductive event : Type :=
  | Exists_called (p : path) (answer : option bool)
  | Load_called (p : path) (doc : option pyval)
  | Dump_called (p : path) (v : pyval) (completed : bool)
  | Printed (line : string) (completed : bool).

(** A computation appends its calls to the trace and ends with a value or
    an exception. *)
Definition io (A : Type) : Type := list event → list event * outcome A.

#[global] Instance io_ret : MRet io := λ A a tr, (tr, Done a).
#[global] Instance io_bind : MBind io := λ A B k m tr,
  match m tr with
  | (tr', Done a) => k a tr'
  | (tr', Failed e) => (tr', Failed e)
  end.

Definition raise {A} (e : script_exn) : io A := λ tr, (tr, Failed e).

Definition call_exists (h : host) (p : path) : io bool :=
  λ tr, (tr ++ [Exists_called p (path_exists h p)],
         match path_exists h p with
         | Some found => Done found
         | None => Failed HostError
         end).

Definition call_load (h : host) (p : path) : io pyval :=
  λ tr, (tr ++ [Load_called p (json_load h p)],
         match json_load h p with
         | Some doc => Done doc
         | None => Failed HostError
         end).

Definition call_dump (h : host) (p : path) (v : pyval) : io unit :=
  λ tr, (tr ++ [Dump_called p v (json_dump h p v)],
         if json_dump h p v then Done tt else Failed HostError).

Definition call_print (h : host) (line : string) : io unit :=
  λ tr, (tr ++ [Printed line (print_line h line)],
         if print_line h line then Done tt else Failed HostError).

Definition pure_step {A} (r : outcome A) : io A := λ tr, (tr, r).

(** <<
def main() -> None:
    if not INPUT_FILE.exists():
        raise FileNotFoundError(f"Input file not found: {INPUT_FILE}")
    with INPUT_FILE.open("r", encoding="utf-8") as f:
        messages = json.load(f)
    cleaned_messages = clean_messages(messages)
    with OUTPUT_FILE.open("w", encoding="utf-8") as f:
        json.dump(cleaned_messages, f, ensure_ascii=False, indent=2)
    print(f"Wrote {len(cleaned_messages):,} cleaned messages to {OUTPUT_FILE.name}")
>> *)
Definition main (file : path) (h : host) : io unit :=
  found ← call_exists h (INPUT_FILE file);
  if negb found
  then raise (FileNotFoundError
                ("Input file not found: " ++ path_text (INPUT_FILE file)))
  else
    messages ← call_load h (INPUT_FILE file);
    cleaned_messages ← pure_step (clean_messages_any messages);
    _ ← call_dump h (OUTPUT_FILE file) (VList cleaned_messages);
    call_print h (summary file cleaned_messages).

(** The run of the script located at [file] on the host [h]. *)
Definition run_main (file : path) (h : host) : list event * outcome unit :=
  main file h [].

(** *** Reading runs and lines *)

Definition is_dump (ev : event) : bool :=
  match ev with
  | Dump_called _ _ _ => true
  | _ => false
  end.

Definition is_print (ev : event) : bool :=
  match ev with
  | Printed _ _ => true
  | _ => false
  end.

Definition not_comma (c : ascii) : bool := negb (Ascii.eqb c ",").

(** The number a text of digits and commas denotes. *)
Definition read_thousands (s : string) : option N :=
  match NilZero.uint_of_string
          (string_of_list_ascii (List.filter not_comma (list_ascii_of_string s)))
  with
  | Some d => Some (N.of_uint d)
  | None => None
  end.

(** The groups of characters between the commas. *)
Fixpoint comma_groups (cs : list ascii) : list (list ascii) :=
  match cs with
  | [] => [[]]
  | c :: rest =>
      if Ascii.eqb c "," then [] :: comma_groups rest
      else match comma_groups rest with
           | g :: gs => (c :: g) :: gs
           | [] => [[c]]
           end
  end.

(** Hosts for the examples: one where the input exists and holds the given
    document, and every write completes; one where there is no input. *)
Definition sample_host (doc : pyval) : host :=
  mk_host (λ _, Some true) (λ _, Some doc) (λ _ _, true) (λ _, true).

Definition empty_host : host :=
  mk_host (λ _, Some false) (λ _, None) (λ _ _, true) (λ _, true).

Definition sample_file : path := mk_path "/home/user/Desktop/" "clean_parsed_conversations.py".

End Script.

(** * Proofs *)

(** ** Calendar arithmetic *)

Module CalendarFacts.
Import Calendar Spec.
#[local] Open Scope Z_scope.

Ltac case_compare :=
  repeat match goal with
    | |- context [Z.ltb ?a ?b] => destruct (Z.ltb_spec a b)
    | |- context [Z.leb ?a ?b] => destruct (Z.leb_spec a b)
    end.

Ltac div_lia := Z.to_euclidean_division_equations; lia.

(** Converting a day count to a civil date and back is the identity, and the
    month and day are those of a calendar. *)
Lemma days_from_civil_from_days z :
  let '(y, m, d) := civil_from_days z in
  days_from_civil y m d = z ∧ 1 <= m <= 12 ∧ 1 <= d <= 31.
Proof.
  unfold civil_from_days, days_from_civil. cbv zeta.
  case_compare; div_lia.
Qed.

(** The civil year grows with the day count: the days of the years 1 to 9999
    are those from -719162 to 2932896. *)
Lemma civil_year_range z :
  -719162 <= z <= 2932896 →
  1 <= (civil_from_days z).1.1 <= 9999.
Proof.
  intros Hz. unfold civil_from_days. cbv zeta. cbn [fst].
  case_compare; div_lia.
Qed.

Lemma civil_year_range_inv z :
  1 <= (civil_from_days z).1.1 <= 9999 →
  -719162 <= z <= 2932896.
Proof.
  unfold civil_from_days. cbv zeta. cbn [fst].
  case_compare; intros Hy; div_lia.
Qed.

Lemma valid_date_civil z :
  let '(y, m, d) := civil_from_days z in valid_date y m d = true.
Proof.
  pose proof (days_from_civil_from_days z) as H.
  destruct (civil_from_days z) as [[y m] d] eqn:E. destruct H as [H _].
  unfold valid_date. rewrite H, E.
  rewrite !Z.eqb_refl. reflexivity.
Qed.

(** Hours, minutes and seconds are the digits of the second of the day. *)
Lemma time_of_day t :
  let tm := gmtime_fields t in
  0 <= tm_hour tm < 24 ∧ 0 <= tm_min tm < 60 ∧ 0 <= tm_sec tm < 60
  ∧ (t / 86400) * 86400 + tm_hour tm * 3600 + tm_min tm * 60 + tm_sec tm = t.
Proof.
  unfold gmtime_fields.
  destruct (civil_from_days (t / 86400)) as [[y m] d]. cbn.
  div_lia.
Qed.

Lemma gmtime_fields_date t :
  let tm := gmtime_fields t in
  (tm_year tm, tm_mon tm, tm_mday tm) = civil_from_days (t / 86400).
Proof.
  unfold gmtime_fields.
  destruct (civil_from_days (t / 86400)) as [[y m] d]. reflexivity.
Qed.

(** [gmtime] followed by the year check of the [datetime] constructor
    succeeds exactly on the seconds of the years 1 to 9999. *)
Lemma year_in_range_iff t :
  1 <= tm_year (gmtime_fields t) <= 9999 ↔
  min_timestamp <= t <= max_timestamp.
Proof.
  pose proof (gmtime_fields_date t) as E. cbv zeta in E.
  assert (tm_year (gmtime_fields t) = (civil_from_days (t / 86400)).1.1) as ->
    by (rewrite <- E; reflexivity).
  unfold min_timestamp, max_timestamp. split.
  - intros H%civil_year_range_inv. div_lia.
  - intros H. apply civil_year_range. div_lia.
Qed.




End CalendarFacts.

(** ** Digits, formatting and [str.replace] *)

Module StrFacts.
Import PyStr Spec.
#[local] Open Scope Z_scope.

Lemma digit_char_spec x :
  ∃ k : nat, (k < 10)%nat ∧ x mod 10 = Z.of_nat k
             ∧ digit_char (x mod 10) = ascii_of_nat (48 + k).
Proof.
  exists (Z.to_nat (x mod 10)).
  pose proof (Z.mod_pos_bound x 10 ltac:(lia)). repeat split; [lia | lia].
Qed.

Ltac digit_cases x k :=
  let Hk := fresh "Hk" in
  let Hx := fresh "Hx" in
  let Hc := fresh "Hc" in
  destruct (digit_char_spec x) as (k & Hk & Hx & Hc);
  rewrite Hc, ?Hx;
  do 10 (destruct k as [|k]; [reflexivity|]); lia.

Lemma digit_char_is_digit x : is_digit (digit_char (x mod 10)) = true.
Proof. digit_cases x k. Qed.

Lemma digit_val_char x : digit_val (digit_char (x mod 10)) = x mod 10.
Proof. digit_cases x k. Qed.

Lemma digit_char_not_plus x : Ascii.eqb "+" (digit_char (x mod 10)) = false.
Proof. digit_cases x k. Qed.

(** A digit is copied by the replacement of ["+00:00"]. *)
Lemma replace_from_digit new x s :
  replace_from "+00:00" new 0 (String (digit_char (x mod 10)) s)
  = String (digit_char (x mod 10)) (replace_from "+00:00" new 0 s).
Proof.
  cbn [replace_from starts_with]. rewrite digit_char_not_plus. reflexivity.
Qed.

Lemma fmt_digits_2 n :
  fmt_digits 2 n
  = String (digit_char ((n / 10) mod 10)) (String (digit_char (n mod 10)) "").
Proof. reflexivity. Qed.

Lemma fmt_digits_4 n :
  fmt_digits 4 n
  = String (digit_char ((n / 10 / 10 / 10) mod 10))
      (String (digit_char ((n / 10 / 10) mod 10))
         (String (digit_char ((n / 10) mod 10))
            (String (digit_char (n mod 10)) ""))).
Proof. reflexivity. Qed.

Lemma num2_fmt n :
  0 <= n < 100 →
  num2 (digit_char ((n / 10) mod 10)) (digit_char (n mod 10)) = n.
Proof.
  intros Hn. unfold num2. rewrite !digit_val_char.
  Z.to_euclidean_division_equations; lia.
Qed.

Lemma num4_fmt n :
  0 <= n < 10000 →
  num4 (digit_char ((n / 10 / 10 / 10) mod 10))
       (digit_char ((n / 10 / 10) mod 10))
       (digit_char ((n / 10) mod 10)) (digit_char (n mod 10)) = n.
Proof.
  intros Hn. unfold num4. rewrite !digit_val_char.
  Z.to_euclidean_division_equations; lia.
Qed.

End StrFacts.

(** ** [numeric_ts_to_iso] *)

Module IsoFacts.
Import Calendar PyFloat PyStr Datetime Cleaner Spec CalendarFacts StrFacts.
#[local] Open Scope Z_scope.

Lemma replace_from_other new c s :
  Ascii.eqb "+" c = false →
  replace_from "+00:00" new 0 (String c s)
  = String c (replace_from "+00:00" new 0 s).
Proof.
  intros H. cbn [replace_from starts_with]. rewrite H. reflexivity.
Qed.

Ltac expand_text :=
  unfold iso_text; rewrite ?fmt_digits_2, ?fmt_digits_4;
  cbv beta iota fix delta [String.append].

(** Once the microseconds are zero, [isoformat] followed by the replacement
    of the offset is the 20-character text. *)
Lemma replace_isoformat y m d hh mm ss :
  replace "+00:00" "Z" (isoformat (mk_datetime y m d hh mm ss 0))
  = iso_text y m d hh mm ss.
Proof.
  unfold isoformat. cbn [year month day hour minute second microsecond Z.eqb].
  expand_text. unfold replace.
  repeat first [ rewrite replace_from_digit
               | rewrite replace_from_other by reflexivity ].
  reflexivity.
Qed.

Lemma iso_text_length y m d hh mm ss :
  String.length (iso_text y m d hh mm ss) = 20%nat.
Proof. expand_text. reflexivity. Qed.

Lemma iso_text_format y m d hh mm ss :
  matches_iso_format (iso_text y m d hh mm ss) = true.
Proof.
  expand_text. unfold matches_iso_format.
  cbn [list_ascii_of_string forallb]. rewrite !digit_char_is_digit.
  reflexivity.
Qed.

Lemma parse_iso_text y m d hh mm ss :
  0 <= y < 10000 → 0 <= m < 100 → 0 <= d < 100 →
  0 <= hh < 24 → 0 <= mm < 60 → 0 <= ss < 60 →
  valid_date y m d = true →
  parse_iso_utc (iso_text y m d hh mm ss)
  = Some (days_from_civil y m d * 86400 + hh * 3600 + mm * 60 + ss).
Proof.
  intros Hy Hm Hd Hhh Hmm Hss Hv.
  pose proof (iso_text_format y m d hh mm ss) as Hf.
  unfold parse_iso_utc. rewrite Hf. clear Hf.
  expand_text. cbn [list_ascii_of_string].
  rewrite num4_fmt by lia. rewrite !num2_fmt by lia.
  rewrite Hv.
  destruct (Z.ltb_spec hh 24); [|lia].
  destruct (Z.ltb_spec mm 60); [|lia].
  destruct (Z.ltb_spec ss 60); [|lia].
  reflexivity.
Qed.

(** The text of a second of the years 1 to 9999 has the ISO shape and parses
    back to that second. *)
Lemma parse_iso_of_seconds t :
  min_timestamp <= t <= max_timestamp →
  matches_iso_format (iso_of_seconds t) = true
  ∧ parse_iso_utc (iso_of_seconds t) = Some t.
Proof.
  intros Ht. unfold iso_of_seconds. cbv zeta. split; [apply iso_text_format|].
  pose proof (proj2 (year_in_range_iff t) Ht) as Hy.
  pose proof (time_of_day t) as (Hhh & Hmm & Hss & Hsum).
  pose proof (gmtime_fields_date t) as Hdate. cbv zeta in Hdate.
  pose proof (days_from_civil_from_days (t / 86400)) as Hrt.
  pose proof (valid_date_civil (t / 86400)) as Hv.
  rewrite <- Hdate in Hrt, Hv. destruct Hrt as (Hrt & Hm & Hd).
  rewrite parse_iso_text by (assumption || lia).
  rewrite Hrt. f_equal. exact Hsum.
Qed.

(** [numeric_ts_to_iso] succeeds exactly when the whole second of the
    timestamp lies in the years 1 to 9999, and then returns its text. *)
Lemma numeric_ts_to_iso_Ok ts s :
  numeric_ts_to_iso ts = Ok s ↔
  ∃ t us, timestamp_parts ts = Ok (t, us)
          ∧ min_timestamp <= t <= max_timestamp ∧ s = iso_of_seconds t.
Proof.
  unfold numeric_ts_to_iso, fromtimestamp_utc.
  destruct (timestamp_parts ts) as [[t us]|e]; cbn [mbind result_bind];
    [|split; [discriminate | intros (? & ? & [=] & _)]].
  pose proof (year_in_range_iff t) as Hyr.
  pose proof (time_of_day t) as (_ & _ & Hs & _). cbv zeta in Hs.
  assert (∀ tm us', tm = gmtime_fields t →
            replace "+00:00" "Z"
              (isoformat (replace_microsecond
                 (mk_datetime (tm_year tm) (tm_mon tm) (tm_mday tm) (tm_hour tm)
                    (tm_min tm) (Z.min 59 (tm_sec tm)) us') 0))
            = iso_of_seconds t) as Htext.
  { intros tm us' ->. unfold replace_microsecond, iso_of_seconds.
    cbn [year month day hour minute second microsecond].
    rewrite Z.min_r by lia. apply replace_isoformat. }
  unfold gmtime, new_datetime, MINYEAR, MAXYEAR,
    time_t_min, time_t_max, int_min, int_max.
  unfold min_timestamp, max_timestamp in *.
  remember (gmtime_fields t) as tm eqn:Etm.
  specialize (Htext tm us eq_refl).
  split.
  - case_compare; cbn [orb mbind result_bind]; try discriminate.
    case_compare; cbn [orb mbind result_bind]; try discriminate.
    intros [= <-]. exists t, us. split; [reflexivity|]. split; [lia|].
    exact Htext.
  - intros (t' & us' & [= <- <-] & Ht & ->).
    case_compare; cbn [orb mbind result_bind]; try lia.
    case_compare; cbn [orb mbind result_bind]; try lia.
    f_equal. exact Htext.
Qed.

End IsoFacts.

(** ** The float product, rounded to 53 bits

    [SFmul] multiplies the mantissas and rounds the product with
    [binary_round_aux].  The lemmas follow the mantissa through the shift
    and the rounding, and place the microseconds of a scaled fraction
    against the two numbers that decide the whole second: 1000000 and 0. *)

Module RoundingFacts.
Import PyFloat Rounding.
#[local] Open Scope Z_scope.

(** The number of binary digits brackets the number. *)
Lemma digits2_pos_bounds m :
  2 ^ (Zpos (digits2_pos m) - 1) <= Zpos m < 2 ^ Zpos (digits2_pos m).
Proof.
  induction m as [m IH|m IH|]; cbn [digits2_pos]; [| |cbn; lia].
  all: rewrite Pos2Z.inj_succ;
    replace (Z.succ (Zpos (digits2_pos m)) - 1)
      with (Z.succ (Zpos (digits2_pos m) - 1)) by lia;
    rewrite !Z.pow_succ_r by lia; lia.
Qed.

(** One step of the shift: the mantissa is halved, the bit that falls off
    is remembered, and the bits that fell off before are summed up. *)
Lemma shr_1_spec m r s :
  0 <= m →
  shr_1 {| shr_m := m; shr_r := r; shr_s := s |}
  = {| shr_m := m / 2; shr_r := Z.odd m; shr_s := r || s |}.
Proof.
  intros Hm. destruct m as [|[p|p|]|]; [| | | |lia]; cbn [shr_1 Z.odd]; f_equal.
  - apply (Z.div_unique _ _ _ 1); lia.
  - apply (Z.div_unique _ _ _ 0); lia.
Qed.

Lemma iter_pos_nat {A} (f : A → A) p x :
  SpecFloat.iter_pos f p x = Nat.iter (Pos.to_nat p) f x.
Proof.
  revert x. induction p as [p IH|p IH|]; intros x; cbn [SpecFloat.iter_pos].
  - rewrite !IH, Pos2Nat.inj_xI, <- Nat.iter_add, <- Nat.iter_succ_r.
    f_equal. lia.
  - rewrite !IH, Pos2Nat.inj_xO, <- Nat.iter_add. f_equal. lia.
  - reflexivity.
Qed.

Lemma shifted_start m : 0 <= m → shifted m 1 (Build_shr_record m false false).
Proof. intros Hm. exists 0. cbn. repeat split; lia. Qed.

(** Case analysis on the comparisons of the goal and of the hypotheses. *)
Ltac bool_cases :=
  repeat first
    [ match goal with |- context [(?a <=? ?b)] => destruct (Z.leb_spec a b) end
    | match goal with |- context [(?a <? ?b)] => destruct (Z.ltb_spec a b) end
    | match goal with |- context [(?a =? ?b)] => destruct (Z.eqb_spec a b) end
    | match goal with
      | H : context [(?a <=? ?b)] |- _ => destruct (Z.leb_spec a b)
      end
    | match goal with
      | H : context [(?a <? ?b)] |- _ => destruct (Z.ltb_spec a b)
      end
    | match goal with
      | H : context [(?a =? ?b)] |- _ => destruct (Z.eqb_spec a b)
      end ].

Lemma shifted_step m B mrs :
  0 < B → shifted m B mrs → shifted m (2 * B) (shr_1 mrs).
Proof.
  intros HB (ρ & Hm & Hρ & Hq & Hr & Hs). destruct mrs as [q r s].
  cbn [shr_m shr_r shr_s] in *. rewrite shr_1_spec by done.
  pose proof (Z.div_mod q 2 ltac:(lia)) as Hdiv.
  pose proof (Zmod_odd q) as Hodd.
  assert (0 <= q / 2) by (apply Z.div_pos; lia).
  exists (ρ + (q mod 2) * B). cbn [shr_m shr_r shr_s].
  subst r s. destruct (Z.odd q); rewrite Hodd in *.
  all: repeat split; try nia.
  all: bool_cases; cbn; try reflexivity; try lia.
Qed.

Lemma shifted_iter m k :
  0 <= m →
  shifted m (2 ^ Z.of_nat k) (Nat.iter k shr_1 (Build_shr_record m false false)).
Proof.
  intros Hm. induction k as [|k IH]; [by apply shifted_start|].
  rewrite Nat2Z.inj_succ, Z.pow_succ_r by lia. cbn [Nat.iter].
  apply shifted_step; [|done]. apply Z.pow_pos_nonneg; lia.
Qed.

(** The shift of [shr], for a positive number of places. *)
Lemma shr_shifted m e n :
  0 <= m → 0 < n →
  ∃ mrs, shr (Build_shr_record m false false) e n = (mrs, e + n)
         ∧ shifted m (2 ^ n) mrs.
Proof.
  intros Hm Hn. destruct n as [|p|]; [lia| |lia]. cbn [shr].
  eexists; split; [reflexivity|]. rewrite iter_pos_nat.
  rewrite <- (positive_nat_Z p). by apply shifted_iter.
Qed.

(** Rounding the shifted record gives the nearest integer, ties to even. *)
Lemma round_shifted m B mrs :
  0 < B → shifted m B mrs →
  ∃ q ρ, m = q * B + ρ ∧ 0 <= ρ < B ∧ 0 <= q
         ∧ round_nearest_even (shr_m mrs) (loc_of_shr_record mrs)
           = nearest_even q ρ B.
Proof.
  intros HB (ρ & Hm & Hρ & Hq & Hr & Hs). destruct mrs as [q r s].
  cbn [shr_m shr_r shr_s] in *. exists q, ρ. repeat split; try lia.
  unfold nearest_even. subst r s.
  destruct (Z.compare_spec (2 * ρ) B); bool_cases; cbn; try reflexivity; lia.
Qed.

(** Where the nearest integer stands against an even integer. *)
Lemma nearest_even_ge q ρ B K0 :
  0 < B → 0 <= ρ < B → Z.even K0 = true →
  K0 <= nearest_even q ρ B ↔ (2 * K0 - 1) * B <= 2 * (q * B + ρ).
Proof.
  intros HB Hρ [k ->]%Z.even_spec. unfold nearest_even.
  destruct (Z.compare_spec (2 * ρ) B) as [He|Hl|Hg].
  - destruct (Z.even q) eqn:Hq.
    + apply Z.even_spec in Hq as [j ->]. split; nia.
    + rewrite <- Z.negb_odd in Hq. apply negb_false_iff, Z.odd_spec in Hq as [j ->].
      split; nia.
  - split; nia.
  - split; nia.
Qed.

Lemma nearest_even_le q ρ B K0 :
  0 < B → 0 <= ρ < B → Z.even K0 = true →
  nearest_even q ρ B <= K0 ↔ 2 * (q * B + ρ) <= (2 * K0 + 1) * B.
Proof.
  intros HB Hρ [k ->]%Z.even_spec. unfold nearest_even.
  destruct (Z.compare_spec (2 * ρ) B) as [He|Hl|Hg].
  - destruct (Z.even q) eqn:Hq.
    + apply Z.even_spec in Hq as [j ->]. split; nia.
    + rewrite <- Z.negb_odd in Hq. apply negb_false_iff, Z.odd_spec in Hq as [j ->].
      split; nia.
  - split; nia.
  - split; nia.
Qed.

Lemma nearest_even_range q ρ B :
  q <= nearest_even q ρ B <= q + 1.
Proof.
  unfold nearest_even.
  destruct (2 * ρ ?= B); [destruct (Z.even q)| |]; lia.
Qed.

Lemma shr_none mrs e n : n <= 0 → shr mrs e n = (mrs, e).
Proof. intros Hn. destruct n as [|p|p]; [done|lia|done]. Qed.

Lemma pow2_pos a : 0 < 2 ^ a ∨ a < 0.
Proof.
  destruct (Z.le_gt_cases 0 a); [left|right; lia].
  apply Z.pow_pos_nonneg; lia.
Qed.

(** The product of two mantissas, rounded to 53 bits: exact when it fits,
    and otherwise shifted by [f - E] places and rounded to the nearest,
    ties to even; [f] is the exponent of the format for a number of this
    size. *)
Lemma binary_round_aux_spec s M E :
  let f := Z.max (Zpos (digits2_pos M) + E - 53) (-1074) in
  f + 1 <= 971 → E <= 971 →
  (f <= E
   ∧ binary_round_aux prec emax s (Zpos M) E loc_Exact = S754_finite s M E)
  ∨ (E < f
     ∧ ∃ q ρ K f',
         Zpos M = q * 2 ^ (f - E) + ρ ∧ 0 <= ρ < 2 ^ (f - E) ∧ 0 <= q
         ∧ Zpos M < 2 ^ 53 * 2 ^ (f - E)
         ∧ binary_round_aux prec emax s (Zpos M) E loc_Exact = float_of s K f'
         ∧ 0 <= K
         ∧ ((f' = f ∧ K = nearest_even q ρ (2 ^ (f - E)))
            ∨ (f' = f + 1 ∧ 2 * K = nearest_even q ρ (2 ^ (f - E))))).
Proof.
  intros f Hf HE. unfold binary_round_aux, shr_fexp.
  change (fexp prec emax) with (λ x, Z.max (x - 53) (-1074)). cbv beta.
  cbn [Zdigits2 shr_record_of_loc]. fold f.
  destruct (Z.le_gt_cases f E) as [Hn|Hn].
  - left. split; [done|].
    rewrite shr_none by lia. cbn [shr_m loc_of_shr_record round_nearest_even].
    cbn [Zdigits2]. fold f. rewrite shr_none by lia. cbn [shr_m].
    unfold prec, emax. by destruct (Z.leb_spec E (1024 - 53)); [|lia].
  - right. split; [done|].
    destruct (shr_shifted (Zpos M) E (f - E) ltac:(lia) ltac:(lia))
      as (mrs & -> & Hsh).
    assert (0 < 2 ^ (f - E)) as HB by (apply Z.pow_pos_nonneg; lia).
    destruct (round_shifted _ _ _ HB Hsh) as (q & ρ & HM & Hρ & Hq & ->).
    pose proof (nearest_even_range q ρ (2 ^ (f - E))) as HK.
    set (K := nearest_even q ρ (2 ^ (f - E))) in *.
    replace (E + (f - E)) with f by lia.
    pose proof (digits2_pos_bounds M) as [_ HdM].
    assert (Zpos M < 2 ^ 53 * 2 ^ (f - E)) as HMB.
    { rewrite <- Z.pow_add_r by lia.
      eapply Z.lt_le_trans; [exact HdM|]. apply Z.pow_le_mono_r; lia. }
    assert (q < 2 ^ 53) as Hq53 by nia.
    exists q, ρ. 
    destruct K as [|k|k] eqn:EK; [| |lia].
    + exists 0, f. do 4 (split; [lia|]).
      cbn [Zdigits2]. rewrite shr_none by lia. cbn [shr_m float_of].
      split; [done|]. split; [done|]. by left.
    + pose proof (digits2_pos_bounds k) as [Hk1 Hk2].
      cbn [Zdigits2].
      destruct (Z.le_gt_cases (Zpos (digits2_pos k)) 53) as [Hd|Hd].
      * exists (Zpos k), f. do 4 (split; [lia|]).
        rewrite shr_none by lia. cbn [shr_m float_of].
        unfold prec, emax. destruct (Z.leb_spec f (1024 - 53)); [|lia].
        split; [done|]. split; [done|]. by left.
      * assert (Zpos (digits2_pos k) = 54) as Hd54.
        { assert (2 ^ (Zpos (digits2_pos k) - 1) <= 2 ^ 53) as Hle by lia.
          apply Z.pow_le_mono_r_iff in Hle; lia. }
        assert (Zpos k = 2 ^ 53) as Hk.
        { rewrite Hd54 in Hk1. change (54 - 1) with 53 in Hk1. lia. }
        exists (2 ^ 52), (f + 1). do 4 (split; [lia|]).
        rewrite Hd54.
        replace (Z.max (54 + f - 53) (-1074) - f) with 1 by lia.
        cbn [shr SpecFloat.iter_pos]. rewrite shr_1_spec by lia.
        cbn [shr_m]. rewrite Hk. change (2 ^ 53 / 2) with (2 ^ 52).
        change (2 ^ 52) with (Zpos (2 ^ 52)%positive) at 1. cbn [float_of].
        unfold prec, emax. destruct (Z.leb_spec (f + 1) (1024 - 53)); [|lia].
        split; [done|]. split; [done|]. right. split; [done|].
        fold K. rewrite EK, Hk. done.
Qed.

(** [round] of a float given by its mantissa and a negative exponent. *)
Lemma round_half_even_float_of s K f :
  0 <= K → f < 0 →
  ∃ q ρ, K = q * 2 ^ (- f) + ρ ∧ 0 <= ρ < 2 ^ (- f) ∧ 0 <= q
         ∧ round_half_even (float_of s K f)
           = Some (cond_Zopp s (nearest_even q ρ (2 ^ (- f)))).
Proof.
  intros HK Hf.
  assert (0 < 2 ^ (- f)) as Hd by (apply Z.pow_pos_nonneg; lia).
  pose proof (Z.div_mod K (2 ^ (- f)) ltac:(lia)) as Hdm.
  pose proof (Z.mod_pos_bound K (2 ^ (- f)) Hd) as Hr.
  assert (0 <= K / 2 ^ (- f)) as Hq by (apply Z.div_pos; lia).
  exists (K / 2 ^ (- f)), (K mod 2 ^ (- f)).
  split; [lia|]. split; [lia|]. split; [lia|].
  destruct K as [|k|k]; [| |lia]; cbn [float_of round_half_even].
  - rewrite Z.div_0_l, Z.mod_0_l by lia. unfold nearest_even.
    destruct (Z.compare_spec (2 * 0) (2 ^ (- f))); try lia.
    by destruct s.
  - destruct (Z.leb_spec 0 f); [lia|]. reflexivity.
Qed.

(** The microseconds of a product: where they stand against an even
    number [K0], in terms of the exact product [M * 2^E]. *)
Lemma rounded_product_thresholds s M E us :
  let f := Z.max (Zpos (digits2_pos M) + E - 53) (-1074) in
  E <= 5 → f <= -2 →
  round_half_even (binary_round_aux prec emax s (Zpos M) E loc_Exact) = Some us →
  ∃ U, us = cond_Zopp s U ∧ 0 <= U
    ∧ ((f <= E ∧ 0 <= E ∧ U = Zpos M * 2 ^ E)
       ∨ (f <= E ∧ E < 0
          ∧ ∀ K0, Z.even K0 = true →
              (K0 <= U ↔ (2 * K0 - 1) * 2 ^ (- E) <= 2 * Zpos M)
              ∧ (U <= K0 ↔ 2 * Zpos M <= (2 * K0 + 1) * 2 ^ (- E)))
       ∨ (E < f ∧ Zpos M < 2 ^ 53 * 2 ^ (f - E)
          ∧ ∀ K0, Z.even K0 = true →
              (K0 <= U
               ↔ ((2 * K0 - 1) * 2 ^ (- f) - 1) * 2 ^ (f - E) <= 2 * Zpos M)
              ∧ (U <= K0
                 ↔ 2 * Zpos M <= ((2 * K0 + 1) * 2 ^ (- f) + 1) * 2 ^ (f - E)))).
Proof.
  intros f HE Hf.
  destruct (binary_round_aux_spec s M E ltac:(fold f; lia) ltac:(lia))
    as [[Hn ->] | (Hn & q & ρ & K & f' & HM & Hρ & Hq & HMB & -> & HK & Hf')];
    fold f in Hn |- *.
  - (* the product is exact *)
    destruct (Z.le_gt_cases 0 E) as [HE0|HE0].
    + cbn [round_half_even]. destruct (Z.leb_spec 0 E); [|lia].
      intros [= <-]. exists (Zpos M * 2 ^ E).
      assert (0 <= 2 ^ E) by (apply Z.pow_nonneg; lia).
      split; [done|]. split; [nia|]. left. done.
    + change (S754_finite s M E) with (float_of s (Zpos M) E).
      destruct (round_half_even_float_of s (Zpos M) E ltac:(lia) HE0)
        as (q & ρ & HM & Hρ & Hq & ->).
      intros [= <-]. 
      assert (0 < 2 ^ (- E)) as Hd by (apply Z.pow_pos_nonneg; lia).
      pose proof (nearest_even_range q ρ (2 ^ (- E))).
      eexists. split; [done|]. split; [lia|]. right. left.
      split; [done|]. split; [done|]. intros K0 HK0. rewrite HM. split.
      * by apply nearest_even_ge.
      * by apply nearest_even_le.
  - (* the product is rounded *)
    fold f in HM, Hρ, HMB, Hf'.
    assert (0 < 2 ^ (f - E)) as HB by (apply Z.pow_pos_nonneg; lia).
    assert (2 ^ (- f) = 2 * 2 ^ (- f - 1)) as HF.
    { rewrite <- Z.pow_succ_r by lia. f_equal. lia. }
    assert (0 < 2 ^ (- f - 1)) as HF' by (apply Z.pow_pos_nonneg; lia).
    assert (Z.even (2 ^ (- f - 1)) = true) as Heven.
    { rewrite Z.even_pow by lia. reflexivity. }
    assert (f' < 0) as Hf'0 by lia.
    destruct (round_half_even_float_of s K f' HK Hf'0)
      as (q2 & ρ2 & HK2 & Hρ2 & Hq2 & ->).
    intros [= <-].
    assert (0 < 2 ^ (- f')) as Hd by (apply Z.pow_pos_nonneg; lia).
    pose proof (nearest_even_range q2 ρ2 (2 ^ (- f'))).
    eexists. split; [done|]. split; [lia|]. right. right.
    split; [done|]. split; [done|]. intros K0 HK0.
    assert (Z.even ((2 * K0 - 1) * 2 ^ (- f - 1)) = true) as HA
      by (rewrite Z.even_mul, Heven; apply orb_true_r).
    assert (Z.even ((2 * K0 + 1) * 2 ^ (- f - 1)) = true) as HA'
      by (rewrite Z.even_mul, Heven; apply orb_true_r).
    pose proof (nearest_even_ge q ρ _ _ HB Hρ HA) as Hge.
    pose proof (nearest_even_le q ρ _ _ HB Hρ HA') as Hle.
    rewrite <- HM in Hge, Hle.
    pose proof (nearest_even_ge q2 ρ2 _ _ Hd Hρ2 HK0) as Hge2.
    pose proof (nearest_even_le q2 ρ2 _ _ Hd Hρ2 HK0) as Hle2.
    rewrite <- HK2 in Hge2, Hle2.
    rewrite Hge2, Hle2.
    destruct Hf' as [[-> HK'] | [-> HK']]; rewrite <- HK' in Hge, Hle.
    + rewrite !HF. split.
      * etrans; [|etrans; [exact Hge|]]; split; nia.
      * etrans; [|etrans; [exact Hle|]]; split; nia.
    + replace (- (f + 1)) with (- f - 1) by lia. rewrite !HF.
      split.
      * etrans; [|etrans; [exact Hge|]]; split; nia.
      * etrans; [|etrans; [exact Hle|]]; split; nia.
Qed.

(** The scaled fraction is a finite float, and [round] returns. *)
Lemma scaled_fraction_finite s r e :
  e < 0 → Zpos r < 2 ^ (- e) →
  ∃ us, round_half_even (fmul (S754_finite s r e) f_1e6) = Some us.
Proof.
  intros He Hr. unfold fmul, f_1e6. cbn [SFmul]. rewrite xorb_false_r.
  set (M := (r * 15625)%positive).
  assert (Zpos M = 15625 * Zpos r) as HM by (unfold M; lia).
  pose proof (digits2_pos_bounds M) as [Hd1 Hd2].
  assert (0 < 2 ^ (- e)) as Hd by (apply Z.pow_pos_nonneg; lia).
  assert (Zpos (digits2_pos M) <= 14 - e) as HdMe.
  { assert (2 ^ (Zpos (digits2_pos M) - 1) < 2 ^ (14 - e)) as Hlt.
    { replace (14 - e) with (14 + - e) by lia. rewrite Z.pow_add_r by lia.
      change (2 ^ 14) with 16384. nia. }
    apply Z.pow_lt_mono_r_iff in Hlt; lia. }
  destruct (binary_round_aux_spec s M (e + 6) ltac:(lia) ltac:(lia))
    as [[_ ->] | (_ & q & ρ & K & f' & _ & _ & _ & _ & -> & HK & _)].
  - cbn [round_half_even]. destruct (0 <=? e + 6); eauto.
  - destruct K as [|k|k]; [| |lia]; cbn [float_of round_half_even]; [eauto|].
    destruct (0 <=? f'); eauto.
Qed.

(** The microseconds of a fraction [r / 2^-e] of a second, scaled by [1e6]
    in float arithmetic and rounded: they reach 1000000 exactly when the
    fraction is at least [0.9999995 - 2^-34 / 10^6], and they are 0 exactly
    when it is at most [(0.5 + 2^-54) / 10^6]. *)
Lemma scaled_fraction_thresholds s r e us :
  e < 0 → Zpos r < 2 ^ (- e) →
  round_half_even (fmul (S754_finite s r e) f_1e6) = Some us →
  ∃ U, us = cond_Zopp s U ∧ 0 <= U
       ∧ (1000000 <= U
          ↔ (1999999 * 2 ^ 33 - 1) * 2 ^ (- e) <= 2 ^ 34 * 1000000 * Zpos r)
       ∧ (U <= 0
          ↔ 2 ^ 54 * 1000000 * Zpos r <= (2 ^ 53 + 1) * 2 ^ (- e)).
Proof.
  intros He Hr. unfold fmul, f_1e6. cbn [SFmul]. rewrite xorb_false_r.
  set (M := (r * 15625)%positive).
  assert (Zpos M = 15625 * Zpos r) as HM by (unfold M; lia).
  pose proof (digits2_pos_bounds M) as [Hd1 Hd2].
  set (dM := Zpos (digits2_pos M)) in *.
  assert (0 < dM) as HdM by (unfold dM; lia).
  assert (0 < 2 ^ (- e)) as Hd by (apply Z.pow_pos_nonneg; lia).
  assert (2 ^ (- e) = 64 * 2 ^ (- (e + 6)) ∨ 0 <= e + 6) as Hd64.
  { destruct (Z.le_gt_cases 0 (e + 6)); [by right|left].
    change 64 with (2 ^ 6). rewrite <- Z.pow_add_r by lia. f_equal. lia. }
  assert (dM <= 14 - e) as HdMe.
  { assert (2 ^ (dM - 1) < 2 ^ (14 - e)) as Hlt.
    { replace (14 - e) with (14 + - e) by lia. rewrite Z.pow_add_r by lia.
      change (2 ^ 14) with 16384. nia. }
    apply Z.pow_lt_mono_r_iff in Hlt; lia. }
  intros Hus.
  destruct (rounded_product_thresholds s M (e + 6) us ltac:(lia)
              ltac:(fold dM; lia) Hus)
    as (U & -> & HU & Hcases).
  fold dM in Hcases.
  assert (Z.max (dM + (e + 6) - 53) (-1074) <= -33) as Hf33 by lia.
  assert (-1074 < Z.max (dM + (e + 6) - 53) (-1074) →
          Z.max (dM + (e + 6) - 53) (-1074) - (e + 6) = dM - 53) as Hnormal
    by lia.
  assert (-1074 <= Z.max (dM + (e + 6) - 53) (-1074)) as Hfmin by lia.
  assert (dM + (e + 6) - 53 <= Z.max (dM + (e + 6) - 53) (-1074)) as HfdM by lia.
  set (f := Z.max (dM + (e + 6) - 53) (-1074)) in *. clearbody f.
  exists U. split; [done|]. split; [done|].
  set (d := 2 ^ (- e)) in *.
  destruct Hcases as [(Hn & HE0 & ->) | [(Hn & HE0 & Heq) | (Hn & HMB & Heq)]].
  - (* a fraction of at most six bits: the product is an integer *)
    assert (e = -1 ∨ e = -2 ∨ e = -3 ∨ e = -4 ∨ e = -5 ∨ e = -6) as Hcase by lia.
    subst d. rewrite HM.
    destruct Hcase as [-> | [-> | [-> | [-> | [-> | ->]]]]];
      cbn in Hr |- *; split; lia.
  - (* the product fits the mantissa *)
    destruct Hd64 as [Hd64|]; [|lia].
    assert (0 < 2 ^ (- (e + 6))) as Hd' by (apply Z.pow_pos_nonneg; lia).
    set (d' := 2 ^ (- (e + 6))) in *.
    assert (Zpos M < 2 ^ 53) as HM53.
    { eapply Z.lt_le_trans; [exact Hd2|]. apply Z.pow_le_mono_r; lia. }
    destruct (Heq 1000000 eq_refl) as [HP _].
    destruct (Heq 0 eq_refl) as [_ HN].
    rewrite HP, HN. clear HP HN Heq. split.
    + assert (d' <= 2 ^ 33 ∨ 2 ^ 34 <= d') as [Hc|Hc].
      { destruct (Z.le_gt_cases (- (e + 6)) 33).
        - left. apply Z.pow_le_mono_r; lia.
        - right. apply Z.pow_le_mono_r; lia. }
      all: split; lia.
    + assert (d' <= 2 ^ 53 ∨ 2 ^ 54 <= d') as [Hc|Hc].
      { destruct (Z.le_gt_cases (- (e + 6)) 53).
        - left. apply Z.pow_le_mono_r; lia.
        - right. apply Z.pow_le_mono_r; lia. }
      all: split; lia.
  - (* the product is rounded to 53 bits *)
    assert (0 < 2 ^ (f - (e + 6))) as HB by (apply Z.pow_pos_nonneg; lia).
    assert (0 < 2 ^ (- f)) as HF by (apply Z.pow_pos_nonneg; lia).
    assert (d = 64 * (2 ^ (- f) * 2 ^ (f - (e + 6)))) as Hdd.
    { unfold d. change 64 with (2 ^ 6). rewrite <- !Z.pow_add_r by lia.
      f_equal. lia. }
    assert (-1074 < f → 2 ^ 52 * 2 ^ (f - (e + 6)) <= Zpos M) as Hlow.
    { intros Hnorm. rewrite (Hnormal Hnorm).
      rewrite <- Z.pow_add_r by lia.
      replace (52 + (dM - 53)) with (dM - 1) by lia. done. }
    destruct (Heq 1000000 eq_refl) as [HP _].
    destruct (Heq 0 eq_refl) as [_ HN].
    rewrite HP, HN. clear HP HN Heq.
    set (B := 2 ^ (f - (e + 6))) in *. set (F := 2 ^ (- f)) in *.
    split.
    + destruct (Z.eq_dec f (-33)) as [Hf|Hf].
      * assert (F = 2 ^ 33) as HF33 by (unfold F; rewrite Hf; reflexivity).
        rewrite Hdd, HF33. split; lia.
      * assert (2 ^ 34 <= F) as HF34 by (apply Z.pow_le_mono_r; lia).
        assert (2 ^ 34 * B <= F * B) as HFB by nia.
        rewrite Hdd. set (FB := F * B) in *.
        replace (((2 * 1000000 - 1) * F - 1) * B) with (1999999 * FB - B)
          by (unfold FB; ring).
        split; lia.
    + destruct (Z.lt_trichotomy f (-53)) as [Hf|[Hf|Hf]].
      * assert (2 ^ 54 <= F) as HF54 by (apply Z.pow_le_mono_r; lia).
        assert (2 ^ 54 * B <= F * B) as HFB by nia.
        rewrite Hdd. set (FB := F * B) in *.
        replace (((2 * 0 + 1) * F + 1) * B) with (FB + B)
          by (unfold FB; ring).
        split; lia.
      * assert (F = 2 ^ 53) as HF53 by (unfold F; rewrite Hf; reflexivity).
        rewrite Hdd, HF53. split; lia.
      * assert (F <= 2 ^ 52) as HF52 by (apply Z.pow_le_mono_r; lia).
        assert (F * B <= 2 ^ 52 * B) as HFB by nia.
        specialize (Hlow ltac:(lia)).
        rewrite Hdd. set (FB := F * B) in *.
        replace (((2 * 0 + 1) * F + 1) * B) with (FB + B)
          by (unfold FB; ring).
        split; lia.
Qed.

End RoundingFacts.

(** ** Whole seconds of a float timestamp *)

Module FloatFacts.
Import PyFloat Datetime Spec RoundingFacts.
#[local] Open Scope Z_scope.

(** Rounding keeps the sign it is given. *)
Lemma binary_round_aux_sign s m e l :
  match binary_round_aux prec emax s m e l with
  | S754_zero s' | S754_infinity s' | S754_finite s' _ _ => s' = s
  | S754_nan => True
  end.
Proof.
  unfold binary_round_aux.
  destruct (shr_fexp prec emax m e l) as [mrs' e'].
  destruct (shr_fexp prec emax _ e' loc_Exact) as [mrs'' e''].
  destruct (shr_m mrs''); [reflexivity | | exact I].
  destruct (e'' <=? emax - prec); reflexivity.
Qed.

(** The rounded value of a float has the sign of the float. *)
Lemma round_half_even_sign y us :
  round_half_even y = Some us →
  match y with
  | S754_finite true _ _ => us <= 0
  | S754_finite false _ _ => 0 <= us
  | _ => us = 0
  end.
Proof.
  destruct y as [s|s| |s m e]; cbn; try discriminate.
  - intros [= <-]. reflexivity.
  - assert (0 < 2 ^ (- e) ∨ 0 <= e) as Hd.
    { destruct (Z.le_gt_cases 0 e); [right; lia|left].
      apply Z.pow_pos_nonneg; lia. }
    destruct (Z.leb_spec 0 e).
    + intros [= <-]. assert (0 <= 2 ^ e) by (apply Z.pow_nonneg; lia).
      destruct s; cbn; nia.
    + destruct Hd as [Hd|]; [|lia].
      assert (0 <= Zpos m / 2 ^ (- e)) by (apply Z.div_pos; lia).
      intros [= <-].
      destruct (2 * (Zpos m mod 2 ^ (- e)) ?= 2 ^ (- e));
        [destruct (Z.even _)| |]; destruct s; cbn; lia.
Qed.

(** The microseconds of a product with [1e6] have the sign of the fraction. *)
Lemma scaled_fraction_sign s r e us :
  round_half_even (fmul (S754_finite s r e) f_1e6) = Some us →
  if s then us <= 0 else 0 <= us.
Proof.
  unfold fmul, f_1e6. cbn [SFmul]. rewrite xorb_false_r.
  pose proof (binary_round_aux_sign s (Zpos (r * 15625)) (e + 6) loc_Exact) as Hs.
  intros Hr%round_half_even_sign.
  destruct (binary_round_aux _ _ _ _ _ _) as [s'|s'| |s' m' e'];
    subst; destruct s; lia.
Qed.

(** The whole second [fromtimestamp] takes from a float is the second the
    float stands for once it is rounded to microseconds: its floor, or the
    next whole second when the float lies within half a microsecond below
    it. *)
Lemma timestamp_parts_float x t us :
  timestamp_parts (NFloat x) = Ok (t, us) → rounded_second (NFloat x) = Some t.
Proof.
  destruct x as [s|s| |s m e];
    cbn [timestamp_parts modf rounded_second float_ratio]; try discriminate.
  - destruct s; cbn; intros [= <- <-]; reflexivity.
  - unfold within_half_microsecond.
    destruct (Z.leb_spec 0 e) as [He|He].
    + assert (0 <= 2 ^ e) by (apply Z.pow_nonneg; lia).
      destruct s; cbn; intros [= <- <-]; f_equal;
        rewrite !Z.div_1_r; bool_cases; lia.
    + assert (0 < 2 ^ (- e)) as Hd by (apply Z.pow_pos_nonneg; lia).
      set (d := 2 ^ (- e)) in *.
      pose proof (Z.div_mod (Zpos m) d ltac:(lia)) as Hdm.
      pose proof (Z.mod_pos_bound (Zpos m) d Hd) as Hr.
      assert (0 <= Zpos m / d) as Hq by (apply Z.div_pos; lia).
      set (q := Zpos m / d) in *.
      destruct (Zpos m mod d) as [|r|r] eqn:Er; [| |lia].
      * (* no fraction *)
        assert (- Zpos m / d = - q) as Hneg
          by (symmetry; apply (Z.div_unique _ _ _ 0); lia).
        destruct s; cbn [cond_Zopp]; cbn; intros [= <- <-]; f_equal;
          rewrite ?Z.opp_involutive, ?Hneg; fold q;
          bool_cases; lia.
      * destruct (round_half_even (fmul (S754_finite s r e) f_1e6))
          as [us'|] eqn:Eus; [|discriminate].
        apply scaled_fraction_thresholds in Eus
          as (U & -> & HU & HP & HN); [|done|fold d; lia].
        fold d in HP, HN.
        assert (- Zpos m / d = - q - 1) as Hneg
          by (symmetry; apply (Z.div_unique _ _ _ (d - Zpos r)); lia).
        change (34 - 1) with 33. change (54 - 1) with 53.
        destruct s; cbn [cond_Zopp]; rewrite ?Z.opp_involutive, ?Hneg; fold q.
        -- destruct (Z.leb_spec 0 (- Zpos m)); [lia|].
           destruct (Z.leb_spec 1000000 (- U)); [lia|].
           destruct (Z.ltb_spec (- U) 0); intros [= <- <-]; f_equal;
             bool_cases; lia.
        -- destruct (Z.leb_spec 0 (Zpos m)); [|lia].
           destruct (Z.leb_spec 1000000 U); [|destruct (Z.ltb_spec U 0)];
             intros [= <- <-]; f_equal; bool_cases; lia.
Qed.

(** A float that is neither NaN nor an infinity has its parts. *)
Lemma timestamp_parts_finite x :
  float_ratio x ≠ None → ∃ t us, timestamp_parts (NFloat x) = Ok (t, us).
Proof.
  destruct x as [s|s| |s m e]; cbn [float_ratio timestamp_parts modf];
    try done; intros _.
  - destruct s; cbn; eauto.
  - destruct (Z.leb_spec 0 e) as [He|He].
    + destruct s; cbn; eauto.
    + assert (0 < 2 ^ (- e)) as Hd by (apply Z.pow_pos_nonneg; lia).
      pose proof (Z.mod_pos_bound (Zpos m) (2 ^ (- e)) Hd) as Hr.
      destruct (Zpos m mod 2 ^ (- e)) as [|r|r] eqn:Er; [| |lia].
      * destruct s; cbn; eauto.
      * destruct (scaled_fraction_finite s r e He ltac:(lia)) as [us ->].
        destruct (1000000 <=? us); [eauto|]. destruct (us <? 0); eauto.
Qed.

End FloatFacts.

(** ** The loop body *)

Module CleanerFacts.
Import Datetime Cleaner Spec IsoFacts.

Lemma has_empty_content_spec msg :
  has_empty_content msg = true ↔
  msg !! "content" = None ∨ msg !! "content" = Some (VStr "").
Proof.
  unfold has_empty_content, dict_get.
  destruct (msg !! "content") as [v|]; cbn; [|tauto].
  split.
  - destruct v; cbn; try discriminate.
    intros ->%String.eqb_eq. auto.
  - intros [|[= ->]]; [discriminate | reflexivity].
Qed.

(** The membership test of the fallback is the four cases of the
    specification. *)
Lemma sentinel_spec msg :
  py_in (dict_get msg "timestamp" VNone) [LNone; LStr ""; LStr "null"] = true
  ↔ timestamp_unusable msg.
Proof.
  unfold timestamp_unusable, dict_get.
  destruct (msg !! "timestamp") as [v|]; cbn; [|tauto].
  split.
  - destruct v; cbn; try discriminate; auto.
    rewrite orb_false_r, orb_true_iff, !String.eqb_eq.
    intros [-> | ->]; auto.
  - intros [|[[= ->]|[[= ->]|[= ->]]]]; [discriminate | reflexivity..].
Qed.

Lemma numeric_not_sentinel v n :
  isinstance_int_float v = Some n →
  py_in v [LNone; LStr ""; LStr "null"] = false.
Proof. destruct v; cbn; (discriminate || reflexivity). Qed.

Lemma is_None_spec v : is_None v = true ↔ v = VNone.
Proof. destruct v; cbn; split; (discriminate || reflexivity). Qed.

Lemma normalise_timestamp_Ok msg ts msg' :
  normalise_timestamp msg ts = Ok msg' ↔ kept msg ts msg'.
Proof.
  unfold normalise_timestamp. split.
  - destruct (isinstance_int_float ts) as [n|] eqn:En.
    + destruct (numeric_ts_to_iso n) as [s|e] eqn:Es; cbn; [|discriminate].
      intros [= <-]. by eapply kept_converted.
    + destruct (is_None ts) eqn:Ets; intros [= <-].
      * apply is_None_spec in Ets. by apply kept_removed.
      * apply kept_as_is; [done | | done].
        intros ->. discriminate.
  - intros [n s En Es -> | -> -> | En Hts ->].
    + rewrite En, Es. reflexivity.
    + reflexivity.
    + rewrite En. destruct (is_None ts) eqn:Ets; [|done].
      by apply is_None_spec in Ets.
Qed.

Lemma clean_message_None msg :
  clean_message msg = Ok None ↔ has_empty_content msg = true.
Proof.
  unfold clean_message. destruct (has_empty_content msg); [done|].
  split; [|discriminate].
  destruct (fallback_timestamp msg) as [ts|]; cbn; [|discriminate].
  destruct (normalise_timestamp msg ts); cbn; discriminate.
Qed.

Lemma clean_message_Some msg msg' :
  clean_message msg = Ok (Some msg') ↔
  has_empty_content msg = false
  ∧ ∃ ts, fallback_timestamp msg = Ok ts ∧ kept msg ts msg'.
Proof.
  unfold clean_message. destruct (has_empty_content msg).
  { split; [discriminate | intros [[=] _]]. }
  split.
  - destruct (fallback_timestamp msg) as [ts|]; cbn; [|discriminate].
    destruct (normalise_timestamp msg ts) as [m|] eqn:Em; cbn; [|discriminate].
    intros [= <-]. split; [done|]. exists ts. split; [done|].
    by apply normalise_timestamp_Ok.
  - intros (_ & ts & -> & Hk%normalise_timestamp_Ok). cbn.
    rewrite Hk. reflexivity.
Qed.

(** The content filter looks only at [content], and the fallback only at
    [timestamp] and [metadata]. *)
Lemma has_empty_content_ext msg msg' :
  msg' !! "content" = msg !! "content" →
  has_empty_content msg' = has_empty_content msg.
Proof. unfold has_empty_content, dict_get. by intros ->. Qed.

Lemma fallback_timestamp_ext msg msg' :
  msg' !! "timestamp" = msg !! "timestamp" →
  msg' !! "metadata" = msg !! "metadata" →
  fallback_timestamp msg' = fallback_timestamp msg.
Proof. unfold fallback_timestamp, dict_get. by intros -> ->. Qed.

(** A usable timestamp of the record is the working value. *)
Lemma fallback_timestamp_own msg v :
  msg !! "timestamp" = Some v →
  py_in v [LNone; LStr ""; LStr "null"] = false →
  fallback_timestamp msg = Ok v.
Proof.
  intros Hv Hin. unfold fallback_timestamp, dict_get.
  rewrite Hv. change (default VNone (Some v)) with v. by rewrite Hin.
Qed.

(** A null working value comes from the fallback. *)
Lemma fallback_timestamp_None msg :
  fallback_timestamp msg = Ok VNone →
  py_get (dict_get msg "metadata" (VDict ∅)) "conversation_create_time"
  = Ok VNone.
Proof.
  unfold fallback_timestamp.
  destruct (py_in (dict_get msg "timestamp" VNone) _) eqn:Ein; [done|].
  intros [= E]. rewrite E in Ein. discriminate.
Qed.

(** A record without [timestamp] takes the fallback. *)
Lemma fallback_timestamp_absent msg :
  msg !! "timestamp" = None →
  fallback_timestamp msg
  = py_get (dict_get msg "metadata" (VDict ∅)) "conversation_create_time".
Proof. intros Hts. unfold fallback_timestamp, dict_get. by rewrite Hts. Qed.

(** Cleaning changes no field other than [timestamp]. *)
Lemma kept_frame msg ts msg' k :
  kept msg ts msg' → k ≠ "timestamp" → msg' !! k = msg !! k.
Proof.
  intros [n s _ _ -> | _ -> | _ _ ->] Hk.
  - by rewrite lookup_insert_ne.
  - by rewrite lookup_delete_ne.
  - done.
Qed.

Lemma iso_not_sentinel n s :
  numeric_ts_to_iso n = Ok s →
  py_in (VStr s) [LNone; LStr ""; LStr "null"] = false.
Proof.
  intros (t & us & _ & _ & ->)%numeric_ts_to_iso_Ok.
  pose proof (iso_text_length
    (Calendar.tm_year (Calendar.gmtime_fields t))
    (Calendar.tm_mon (Calendar.gmtime_fields t))
    (Calendar.tm_mday (Calendar.gmtime_fields t))
    (Calendar.tm_hour (Calendar.gmtime_fields t))
    (Calendar.tm_min (Calendar.gmtime_fields t))
    (Calendar.tm_sec (Calendar.gmtime_fields t))) as Hlen.
  fold (iso_of_seconds t) in Hlen.
  cbn. rewrite orb_false_r.
  destruct (String.eqb_spec (iso_of_seconds t) "") as [E|_];
    [rewrite E in Hlen; discriminate|].
  destruct (String.eqb_spec (iso_of_seconds t) "null") as [E|_];
    [rewrite E in Hlen; discriminate|].
  reflexivity.
Qed.

(** A cleaned message is a fixed point of the loop body. *)
Lemma clean_message_idempotent msg msg' :
  clean_message msg = Ok (Some msg') →
  clean_message msg' = Ok (Some msg').
Proof.
  intros (Hc & ts & Hts & Hk)%clean_message_Some.
  apply clean_message_Some. split.
  { rewrite <- Hc. apply has_empty_content_ext.
    by eapply kept_frame. }
  destruct Hk as [n s En Es -> | -> -> | En Hne ->].
  - exists (VStr s). split.
    + apply fallback_timestamp_own; [apply lookup_insert_eq|].
      by apply (iso_not_sentinel n).
    + by apply kept_as_is.
  - exists VNone. split.
    + rewrite fallback_timestamp_absent by apply lookup_delete_eq.
      apply fallback_timestamp_None in Hts. rewrite <- Hts.
      unfold dict_get. by rewrite lookup_delete_ne.
    + apply kept_removed; [done|].
      by rewrite delete_delete_eq.
  - exists ts. split; [done|]. by apply kept_as_is.
Qed.

End CleanerFacts.

(** ** The loop *)

Module LoopFacts.
Import Cleaner Spec CleanerFacts.

#[local] Open Scope list_scope.

Lemma survives_true msg :
  survives msg = true ↔ has_empty_content msg = false.
Proof. unfold survives. by destruct (has_empty_content msg). Qed.

Lemma cleaned_as_survives msg msg' : cleaned_as msg msg' → survives msg = true.
Proof. intros (H & _)%clean_message_Some. by apply survives_true. Qed.

Lemma clean_loop_app l1 l2 acc :
  clean_loop (l1 ++ l2) acc = (acc' ← clean_loop l1 acc; clean_loop l2 acc').
Proof.
  revert acc. induction l1 as [|msg l1 IH]; intros acc; [done|].
  cbn [app clean_loop].
  destruct (clean_message msg) as [o|e]; [|done]. cbn. apply IH.
Qed.

(** The loop returns the accumulator followed by the cleaned survivors, in
    their order, and raises when one of them cannot be cleaned. *)
Lemma clean_loop_Ok msgs acc out :
  clean_loop msgs acc = Ok out ↔
  ∃ outs, out = acc ++ outs
          ∧ Forall2 cleaned_as (List.filter survives msgs) outs.
Proof.
  revert acc. induction msgs as [|msg rest IH]; intros acc; cbn [clean_loop].
  - split.
    + intros [= <-]. exists []. by rewrite app_nil_r.
    + intros (outs & -> & ->%Forall2_nil_inv_l). by rewrite app_nil_r.
  - cbn [List.filter].
    destruct (clean_message msg) as [[msg'|]|e] eqn:E; cbn.
    + rewrite (cleaned_as_survives _ _ E), IH. split.
      * intros (outs & -> & H). exists (msg' :: outs).
        rewrite <- app_assoc. split; [done|]. by constructor.
      * intros (outs & -> & H).
        apply Forall2_cons_inv_l in H as (m & outs' & Hm & H & ->).
        unfold cleaned_as in Hm. rewrite E in Hm. injection Hm as <-.
        exists outs'. by rewrite <- app_assoc.
    + apply clean_message_None in E. unfold survives. rewrite E. apply IH.
    + split; [discriminate|]. intros (outs & -> & H).
      destruct (survives msg) eqn:Es.
      * apply Forall2_cons_inv_l in H as (m & outs' & Hm & _).
        unfold cleaned_as in Hm. congruence.
      * apply negb_false_iff, clean_message_None in Es. congruence.
Qed.

Lemma clean_messages_Ok msgs out :
  clean_messages msgs = Ok out ↔
  Forall2 cleaned_as (List.filter survives msgs) out.
Proof.
  unfold clean_messages. rewrite clean_loop_Ok. split.
  - by intros (outs & -> & H).
  - intros H. by exists out.
Qed.

(** A message with empty content leaves no trace in the result. *)
Lemma clean_messages_skip before msg after :
  has_empty_content msg = true →
  clean_messages (before ++ msg :: after) = clean_messages (before ++ after).
Proof.
  intros H%clean_message_None. unfold clean_messages.
  rewrite !clean_loop_app. cbn [clean_loop]. by rewrite H.
Qed.

(** The loop sees its messages only through the loop body. *)
Lemma clean_loop_ext l1 l2 acc :
  Forall2 (λ a b, clean_message a = clean_message b) l1 l2 →
  clean_loop l1 acc = clean_loop l2 acc.
Proof.
  intros H. revert acc.
  induction H as [|a b l1 l2 Hab _ IH]; intros acc; [done|].
  cbn [clean_loop]. rewrite Hab.
  destruct (clean_message b) as [o|e]; [|done]. cbn. apply IH.
Qed.

End LoopFacts.

(** ** The loop on objects agrees with the loop on values *)

Module InPlaceFacts.
Import Cleaner Spec CleanerFacts LoopFacts.
#[local] Open Scope list_scope.

Lemma advances_refl σ : advances σ σ.
Proof. intros l. by left. Qed.

(** Objects that advanced are cleaned the same way. *)
Lemma advances_clean σ σ' l :
  advances σ σ' → clean_message (σ' l) = clean_message (σ l).
Proof.
  intros H. destruct (H l) as [->|Hc]; [done|].
  unfold cleaned_as in Hc. rewrite Hc. by eapply clean_message_idempotent.
Qed.

(** An object that was already clean stays as it is. *)
Lemma advances_fixed σ σ' l :
  advances σ σ' → cleaned_as (σ l) (σ l) → σ' l = σ l.
Proof.
  intros H Hl. destruct (H l) as [|Hc]; [done|].
  unfold cleaned_as in *. congruence.
Qed.

Lemma advances_trans σ1 σ2 σ3 :
  advances σ1 σ2 → advances σ2 σ3 → advances σ1 σ3.
Proof.
  intros H12 H23 l. destruct (H12 l) as [E12|C12].
  - rewrite <- E12. apply H23.
  - right. rewrite (advances_fixed σ2 σ3 l H23); [done|].
    by eapply clean_message_idempotent.
Qed.

Lemma advances_survives σ σ' l :
  advances σ σ' → survives (σ' l) = survives (σ l).
Proof.
  intros H. pose proof (advances_clean σ σ' l H) as Hc.
  unfold survives. destruct (has_empty_content (σ' l)) eqn:E'.
  - apply clean_message_None in E'. rewrite Hc in E'.
    apply clean_message_None in E'. by rewrite E'.
  - destruct (has_empty_content (σ l)) eqn:E; [|done].
    apply clean_message_None in E. rewrite <- Hc in E.
    apply clean_message_None in E. congruence.
Qed.

(** One iteration on an object does to the object what the loop body does
    to its value, and touches no other object. *)
Lemma clean_step_spec σ msg :
  match clean_message (σ msg) with
  | Ok (Some msg') =>
      ∃ σ', InPlace.clean_step σ msg = Ok (σ', true)
            ∧ σ' msg = msg' ∧ ∀ l, l ≠ msg → σ' l = σ l
  | Ok None => InPlace.clean_step σ msg = Ok (σ, false)
  | Raise e => InPlace.clean_step σ msg = Raise e
  end.
Proof.
  unfold clean_message, InPlace.clean_step, normalise_timestamp.
  destruct (has_empty_content (σ msg)); [done|].
  destruct (fallback_timestamp (σ msg)) as [ts|e]; cbn; [|done].
  destruct (isinstance_int_float ts) as [n|].
  - destruct (numeric_ts_to_iso n) as [s|e]; cbn; [|done].
    eexists. split; [done|]. split; [apply fn_lookup_insert|].
    intros l Hl. by apply fn_lookup_insert_ne.
  - destruct (is_None ts); cbn.
    + eexists. split; [done|]. split; [apply fn_lookup_insert|].
      intros l Hl. by apply fn_lookup_insert_ne.
    + by exists σ.
Qed.

(** The loop on objects: the references it returns are the surviving ones in
    their order, the objects they denote have been cleaned, every other
    object is untouched, and the values are those of the loop on values. *)
Lemma clean_loop_in_place σ messages cleaned acc :
  match InPlace.clean_loop σ messages cleaned with
  | Ok (σ', out) =>
      advances σ σ'
      ∧ ∃ outs, out = cleaned ++ outs
        ∧ outs = List.filter (λ l, survives (σ l)) messages
        ∧ (∀ l, l ∈ outs → cleaned_as (σ l) (σ' l))
        ∧ (∀ l, l ∉ outs → σ' l = σ l)
        ∧ clean_loop (σ <$> messages) acc = Ok (acc ++ (σ' <$> outs))
  | Raise e => clean_loop (σ <$> messages) acc = Raise e
  end.
Proof.
  revert σ cleaned acc.
  induction messages as [|msg rest IH]; intros σ cleaned acc.
  { cbn. split; [apply advances_refl|]. exists [].
    rewrite !app_nil_r. repeat split; try done. intros l []%elem_of_nil. }
  cbn [InPlace.clean_loop fmap list_fmap clean_loop].
  pose proof (clean_step_spec σ msg) as Hstep.
  destruct (clean_message (σ msg)) as [[msg'|]|e] eqn:E; cbn.
  - (* the message is cleaned in place and appended *)
    destruct Hstep as (σ1 & -> & Hmsg1 & Hother1). cbn.
    assert (advances σ σ1) as Hadv.
    { intros l. destruct (decide (l = msg)) as [->|Hne].
      - right. unfold cleaned_as. by rewrite Hmsg1.
      - left. by apply Hother1. }
    specialize (IH σ1 (cleaned ++ [msg]) (acc ++ [msg'])).
    destruct (InPlace.clean_loop σ1 rest (cleaned ++ [msg]))
      as [[σ' out]|e]; cbn in *.
    + destruct IH as (Hadv' & outs & -> & -> & Hin & Hout & Hpure).
      assert (σ' msg = msg') as Hmsg.
      { rewrite (advances_fixed σ1 σ' msg Hadv'); [done|].
        rewrite Hmsg1. by eapply clean_message_idempotent. }
      split; [by eapply advances_trans|].
      exists (msg :: List.filter (λ l, survives (σ1 l)) rest).
      rewrite <- app_assoc. split; [done|].
      cbn [List.filter]. rewrite (cleaned_as_survives _ _ E).
      assert (List.filter (λ l, survives (σ l)) rest
              = List.filter (λ l, survives (σ1 l)) rest) as ->.
      { apply List.filter_ext. intros l. symmetry.
        by apply advances_survives. }
      split; [done|]. split; [|split].
      * intros l [->|Hl]%elem_of_cons; [by rewrite Hmsg|].
        unfold cleaned_as. rewrite <- (advances_clean σ σ1 l Hadv).
        by apply Hin.
      * intros l [Hne Hl]%not_elem_of_cons. rewrite (Hout l Hl).
        by apply Hother1.
      * rewrite (clean_loop_ext (σ <$> rest) (σ1 <$> rest)).
        -- rewrite Hpure, <- app_assoc. cbn. by rewrite Hmsg.
        -- apply Forall2_fmap, Forall_Forall2_diag, Forall_forall.
           intros l _. symmetry. by apply advances_clean.
    + rewrite (clean_loop_ext (σ <$> rest) (σ1 <$> rest)); [done|].
      apply Forall2_fmap, Forall_Forall2_diag, Forall_forall.
      intros l _. symmetry. by apply advances_clean.
  - (* the message is skipped *)
    rewrite Hstep. cbn.
    specialize (IH σ cleaned acc).
    destruct (InPlace.clean_loop σ rest cleaned) as [[σ' out]|e]; [|done].
    destruct IH as (Hadv' & outs & -> & -> & Hin & Hout & Hpure).
    split; [done|]. exists (List.filter (λ l, survives (σ l)) rest).
    split; [done|]. cbn [List.filter].
    apply clean_message_None in E. unfold survives at 2. rewrite E. cbn.
    done.
  - by rewrite Hstep.
Qed.

End InPlaceFacts.

(** * The properties of the specification *)

Import Calendar PyFloat PyStr Datetime Cleaner Spec Examples.
Import CalendarFacts IsoFacts FloatFacts CleanerFacts LoopFacts InPlaceFacts.
#[local] Open Scope list_scope.

(** ** Per-record outcomes *)

Lemma timestamp_parts_converted n t us :
  timestamp_parts n = Ok (t, us) → converted_second n t.
Proof.
  destruct n as [i|x]; [by intros [= <- <-]|].
  apply timestamp_parts_float.
Qed.

Lemma cleaned_same_other_fields msg msg' :
  cleaned_as msg msg' → same_other_fields msg msg'.
Proof.
  intros (_ & ts & _ & Hk)%clean_message_Some k Hne. by eapply kept_frame.
Qed.

Lemma cleaned_fallback_outcome msg msg' :
  cleaned_as msg msg' → fallback_outcome msg msg'.
Proof.
  intros (_ & ts & Hts & Hk)%clean_message_Some Hun%sentinel_spec.
  unfold fallback_timestamp in Hts. rewrite Hun in Hts.
  unfold conversation_create_time, dict_get in *.
  destruct (msg !! "metadata") as [[| | | | | |d]|]; try discriminate;
    cbn in Hts; injection Hts as <-.
  - split.
    + intros v n Hv Hn. unfold dict_get in Hk. rewrite Hv in Hk. cbn in Hk.
      destruct Hk as [n' s En Es -> | -> _ | En _ _];
        [|discriminate Hn|congruence].
      assert (n' = n) as -> by congruence.
      apply numeric_ts_to_iso_Ok in Es as (t & us & Hparts & Ht & ->).
      destruct (parse_iso_of_seconds t Ht) as [Hfmt Hparse].
      exists (iso_of_seconds t), t. rewrite lookup_insert_eq.
      repeat split; try done. by eapply timestamp_parts_converted.
    + intros Hv. unfold dict_get in Hk.
      assert (default VNone (d !! "conversation_create_time") = VNone) as Hnone
        by (destruct Hv as [-> | ->]; reflexivity).
      rewrite Hnone in Hk.
      destruct Hk as [n' s En _ _ | _ -> | _ Hne _]; try done.
      apply lookup_delete_eq.
  - split; [by intros v n [=]|]. intros _.
    destruct Hk as [n' s En _ _ | _ -> | _ Hne _]; try done.
    apply lookup_delete_eq.
Qed.

Lemma cleaned_numeric_outcome msg msg' :
  cleaned_as msg msg' → numeric_outcome msg msg'.
Proof.
  intros (_ & ts & Hts & Hk)%clean_message_Some v n Hv Hn.
  rewrite (fallback_timestamp_own msg v Hv) in Hts
    by (by eapply numeric_not_sentinel).
  injection Hts as <-.
  destruct Hk as [n' s En Es -> | -> _ | En _ _];
    [|discriminate Hn|congruence].
  assert (n' = n) as -> by congruence.
  apply numeric_ts_to_iso_Ok in Es as (t & us & Hparts & Ht & ->).
  destruct (parse_iso_of_seconds t Ht) as [Hfmt Hparse].
  exists (iso_of_seconds t), t. rewrite lookup_insert_eq.
  repeat split; try done. by eapply timestamp_parts_converted.
Qed.

(** A working value that is neither numeric nor null leaves the record as it
    is: the record's own timestamp stays, a substituted one is not stored. *)
Lemma cleaned_as_is msg msg' ts :
  cleaned_as msg msg' → fallback_timestamp msg = Ok ts →
  isinstance_int_float ts = None → ts ≠ VNone →
  msg' = msg.
Proof.
  intros (_ & ts' & Hts' & Hk)%clean_message_Some Hts Hn Hne.
  assert (ts' = ts) as -> by congruence.
  destruct Hk as [n s En _ _ | -> _ | _ _ ->]; congruence.
Qed.

Lemma fallback_consulted_spec msg :
  fallback_consulted msg
  = py_in (dict_get msg "timestamp" VNone) [LNone; LStr ""; LStr "null"].
Proof.
  unfold fallback_consulted, dict_get.
  destruct (msg !! "timestamp") as [[]|]; cbn; try done.
  by rewrite orb_false_r.
Qed.

Lemma convertible_normalise msg ts :
  convertible ts = true → ∃ msg', normalise_timestamp msg ts = Ok msg'.
Proof.
  unfold convertible, normalise_timestamp, in_datetime_range.
  destruct (isinstance_int_float ts) as [n|].
  - destruct (timestamp_parts n) as [[t us]|] eqn:Hparts; [|discriminate].
    intros [H1%Z.leb_le H2%Z.leb_le]%andb_true_iff.
    assert (numeric_ts_to_iso n = Ok (iso_of_seconds t)) as ->.
    { apply numeric_ts_to_iso_Ok. exists t, us. auto. }
    cbn. eauto.
  - intros _. destruct (is_None ts); eauto.
Qed.

(** On a tolerated record that survives, the fallback raises nothing and
    yields the working timestamp of the specification. *)
Lemma tolerated_fallback msg :
  tolerated msg = true → survives msg = true →
  ∃ ts, fallback_timestamp msg = Ok ts ∧ convertible ts = true.
Proof.
  unfold tolerated, working_timestamp. intros Htol Hs.
  rewrite Hs in Htol. cbn in Htol.
  apply andb_true_iff in Htol as [Hmeta Hwork].
  unfold fallback_timestamp. rewrite <- fallback_consulted_spec.
  destruct (fallback_consulted msg) eqn:Hcons; cbn in Hmeta.
  - unfold metadata_is_mapping, conversation_create_time, dict_get in *.
    destruct (msg !! "metadata") as [[| | | | | |d]|]; try discriminate; cbn.
    + unfold dict_get.
      destruct (d !! "conversation_create_time") as [c|]; cbn; eauto.
    + eauto.
  - unfold fallback_consulted, dict_get in *.
    destruct (msg !! "timestamp") as [v|]; [|discriminate]. cbn. eauto.
Qed.

Lemma tolerated_clean_message msg :
  tolerated msg = true → ∃ o, clean_message msg = Ok o.
Proof.
  intros Htol. unfold clean_message.
  destruct (has_empty_content msg) eqn:Hc; [eauto|].
  destruct (tolerated_fallback msg Htol) as (ts & -> & Hconv).
  { unfold survives. by rewrite Hc. }
  cbn. destruct (convertible_normalise msg ts Hconv) as [msg' ->]. cbn. eauto.
Qed.

(** The condition is exact: a record that is not tolerated makes the loop
    body raise. *)
Lemma untolerated_record_raises msg :
  tolerated msg = false → ∃ e, clean_message msg = Raise e.
Proof.
  unfold tolerated, survives, working_timestamp, clean_message.
  destruct (has_empty_content msg); [discriminate|]. cbn.
  unfold fallback_timestamp. rewrite <- fallback_consulted_spec.
  assert (∀ v, convertible v = false →
               ∃ e, normalise_timestamp msg v = Raise e) as Hraise.
  { intros v. unfold convertible, normalise_timestamp.
    destruct (isinstance_int_float v) as [n|]; [|discriminate].
    intros Hr. destruct (numeric_ts_to_iso n) as [s|e] eqn:E; cbn; [|eauto].
    apply numeric_ts_to_iso_Ok in E as (t & us & Hparts & [H1 H2] & _).
    unfold in_datetime_range in Hr. rewrite Hparts in Hr.
    apply Z.leb_le in H1, H2. by rewrite H1, H2 in Hr. }
  destruct (fallback_consulted msg) eqn:Hcons; cbn.
  - unfold metadata_is_mapping, conversation_create_time, dict_get.
    destruct (msg !! "metadata") as [[| | | | | |d]|]; cbn; eauto;
      [|discriminate].
    unfold dict_get.
    destruct (d !! "conversation_create_time") as [c|]; [|discriminate].
    change (default VNone (Some c)) with c.
    intros (e & ->)%Hraise. cbn. eauto.
  - unfold fallback_consulted, dict_get in *.
    destruct (msg !! "timestamp") as [v|]; [|discriminate].
    change (default VNone (Some v)) with v.
    intros (e & ->)%Hraise. cbn. eauto.
Qed.

Lemma tolerated_clean_loop msgs acc :
  Forall (λ msg, tolerated msg = true) msgs →
  ∃ out, clean_loop msgs acc = Ok out.
Proof.
  intros H. revert acc.
  induction H as [|msg rest Hmsg _ IH]; intros acc; cbn; [eauto|].
  destruct (tolerated_clean_message msg Hmsg) as [o ->]. cbn. apply IH.
Qed.

(** ** The scenarios of the specification *)

Example scenario_1_cleaned_ok :
  clean_messages [scenario_1] = Ok [scenario_1_cleaned].
Proof. reflexivity. Qed.

Example scenario_2_cleaned_ok :
  clean_messages [scenario_2] = Ok [scenario_2_cleaned].
Proof. reflexivity. Qed.

Example scenario_3_dropped : clean_messages [scenario_3] = Ok [].
Proof. reflexivity. Qed.

Example scenario_4_no_timestamp :
  clean_messages [scenario_4] = Ok [scenario_4]
  ∧ scenario_4 !! "timestamp" = None.
Proof. split; reflexivity. Qed.

Example scenario_5_unchanged : clean_messages [scenario_5] = Ok [scenario_5].
Proof. reflexivity. Qed.

(** A [bool] is an [int]: [true] is converted as the second 1. *)
Example bool_timestamp_converted :
  numeric_outcome {[ "content" := VStr "hi"; "timestamp" := VBool true ]}
                  {[ "content" := VStr "hi";
                     "timestamp" := VStr "1970-01-01T00:00:01Z" ]}.
Proof. by apply cleaned_numeric_outcome. Qed.

(** ** Further properties of the specification *)

(** The output has one record for each input record whose content is not
    empty, and so is not longer than the input. *)
Lemma output_length msgs out :
  clean_messages msgs = Ok out →
  List.length out = List.length (List.filter survives msgs)
  ∧ (List.length out ≤ List.length msgs)%nat.
Proof.
  intros H%clean_messages_Ok%Forall2_length.
  split; [done|]. rewrite <- H. apply List.filter_length_le.
Qed.

(** A timestamp of the record that is a string other than the two sentinels
    is in the output as it was in the input. *)
Lemma own_string_timestamp_unchanged msg msg' s :
  cleaned_as msg msg' →
  msg !! "timestamp" = Some (VStr s) → s ≠ "" → s ≠ "null" →
  msg' !! "timestamp" = Some (VStr s).
Proof.
  intros Hc Hts Hs1 Hs2.
  rewrite (cleaned_as_is msg msg' (VStr s) Hc); [done| |done|done].
  apply fallback_timestamp_own; [done|].
  cbn. by rewrite !(proj2 (String.eqb_neq _ _)).
Qed.

(** Cleaning the returned objects again changes neither the list nor any
    object. *)
Lemma in_place_idempotent σ messages σ' out :
  InPlace.clean_messages σ messages = Ok (σ', out) →
  ∃ σ'', InPlace.clean_messages σ' out = Ok (σ'', out) ∧ ∀ l, σ'' l = σ' l.
Proof.
  unfold InPlace.clean_messages. intros Hrun.
  pose proof (clean_loop_in_place σ messages [] []) as H.
  rewrite Hrun in H. destruct H as (_ & outs & -> & _ & Hin & _ & _).
  cbn [app] in *.
  assert (∀ l, l ∈ outs → cleaned_as (σ' l) (σ' l)) as Hfix.
  { intros l Hl. by eapply clean_message_idempotent, Hin. }
  assert (List.filter (λ l, survives (σ' l)) outs = outs) as Hall.
  { clear -Hfix. induction outs as [|l outs IH]; [done|].
    cbn [List.filter].
    rewrite (cleaned_as_survives _ _ (Hfix l ltac:(left))).
    f_equal. apply IH. intros l' Hl'. apply Hfix. by right. }
  pose proof (clean_loop_in_place σ' outs [] []) as H'.
  destruct (InPlace.clean_loop σ' outs []) as [[σ'' out']|e].
  - destruct H' as (_ & outs' & -> & -> & Hin' & Hout' & _). cbn [app].
    rewrite Hall in *. exists σ''. split; [done|]. intros l.
    destruct (decide (l ∈ outs)) as [Hl|Hl]; [|by apply Hout'].
    specialize (Hin' l Hl). specialize (Hfix l Hl).
    unfold cleaned_as in *. congruence.
  - assert (clean_loop (σ' <$> outs) [] = Ok (σ' <$> outs)) as Hok;
      [|congruence].
    apply clean_loop_Ok. exists (σ' <$> outs). split; [done|].
    clear -Hfix. induction outs as [|l outs IH]; [constructor|].
    cbn [fmap list_fmap List.filter].
    rewrite (cleaned_as_survives _ _ (Hfix l ltac:(left))).
    constructor; [apply Hfix; left|]. apply IH. intros l' Hl'.
    apply Hfix. by right.
Qed.

(** Cleaned records have non-empty content and no numeric timestamp left. *)
Lemma cleaned_output_shape msgs out :
  clean_messages msgs = Ok out →
  Forall (λ msg', survives msg' = true
                  ∧ ∀ v, msg' !! "timestamp" = Some v →
                         isinstance_int_float v = None) out.
Proof.
  intros H%clean_messages_Ok.
  apply Forall2_Forall_r with (Q := λ msg',
    survives msg' = true
    ∧ ∀ v, msg' !! "timestamp" = Some v → isinstance_int_float v = None) in H;
    [done|].
  apply Forall_forall. intros msg _ msg' Hc. split.
  { eapply cleaned_as_survives, clean_message_idempotent, Hc. }
  apply clean_message_Some in Hc as (_ & ts & Hts & Hk).
  intros v Hv.
  destruct Hk as [n s _ _ -> | _ -> | Hn Hne ->].
  - rewrite lookup_insert_eq in Hv. by injection Hv as <-.
  - by rewrite lookup_delete_eq in Hv.
  - unfold fallback_timestamp, dict_get in Hts. rewrite Hv in Hts.
    change (default VNone (Some v)) with v in Hts.
    destruct (py_in v _) eqn:Hin; [|congruence].
    destruct (isinstance_int_float v) as [n|] eqn:En; [|done].
    by rewrite (numeric_not_sentinel v n En) in Hin.
Qed.

(** ** The claims *)

(** C1, as the specification states it, fails on the code: the record
    [{"timestamp": 5}] has no [content] key, and the cleaner drops it. *)
Lemma absent_content_not_in_output :
  msg_without_content !! "content" = None
  ∧ clean_messages [msg_without_content] = Ok [].
Proof. split; reflexivity. Qed.

(** C1, amended: a record whose [content] key is absent is dropped, like one
    whose content is the empty string, because the lookup defaults to the
    empty string: the loop body skips it, and the result of the whole run is
    the result of the run without it. *)
Theorem absent_content_is_dropped before msg after :
  msg !! "content" = None →
  clean_message msg = Ok None
  ∧ clean_messages (before ++ msg :: after) = clean_messages (before ++ after).
Proof.
  intros Hc.
  assert (has_empty_content msg = true) as He
    by (apply has_empty_content_spec; auto).
  split; [by apply clean_message_None | by apply clean_messages_skip].
Qed.

Lemma absent_content_is_dropped_witness :
  msg_without_content !! "content" = None
  ∧ clean_message msg_without_content = Ok None
  ∧ clean_messages ([scenario_1] ++ msg_without_content :: [scenario_4])
    = clean_messages ([scenario_1] ++ [scenario_4]).
Proof.
  split; [reflexivity|].
  apply (absent_content_is_dropped [scenario_1] msg_without_content [scenario_4]).
  reflexivity.
Defined.

(** C2: the code does not do what the claim says when the working value was
    substituted from [metadata.conversation_create_time] and is a string.
    For [msg_string_fallback] the working value is the string
    ["2021-05-01T00:00:00Z"], but it is not stored: the record is appended
    as it came, with its null [timestamp]. *)
Theorem substituted_string_not_stored :
  fallback_timestamp msg_string_fallback = Ok (VStr "2021-05-01T00:00:00Z")
  ∧ clean_messages [msg_string_fallback] = Ok [msg_string_fallback]
  ∧ msg_string_fallback !! "timestamp" = Some VNone.
Proof. repeat split; reflexivity. Qed.

(** C3, as the specification states it, fails on the code: a timestamp in the
    year 10000 makes [datetime] raise, and a null [metadata] has no [get]. *)
Lemma cleaning_raises :
  clean_messages [msg_year_10000] = Raise ValueError
  ∧ clean_messages [msg_null_metadata] = Raise AttributeError.
Proof. split; reflexivity. Qed.

(** C3, amended: the cleaner raises nothing on a list of records provided
    that, in every record that is not dropped, the working timestamp, when
    it is numeric, lies in the years 1 to 9999 that [datetime] supports, and
    [metadata], when the fallback consults it, is absent or a mapping;
    missing fields are tolerated. *)
Theorem tolerated_records_raise_nothing msgs :
  Forall (λ msg, tolerated msg = true) msgs →
  ∃ out, clean_messages msgs = Ok out.
Proof. apply tolerated_clean_loop. Qed.

Lemma tolerated_records_raise_nothing_witness :
  Forall (λ msg, tolerated msg = true)
    [scenario_1; scenario_2; scenario_3; scenario_4; scenario_5]
  ∧ ∃ out, clean_messages
             [scenario_1; scenario_2; scenario_3; scenario_4; scenario_5]
           = Ok out.
Proof.
  assert (Forall (λ msg, tolerated msg = true)
            [scenario_1; scenario_2; scenario_3; scenario_4; scenario_5]) as H
    by (repeat constructor).
  split; [exact H|].
  exact (tolerated_records_raise_nothing _ H).
Defined.

(** The seconds of three floats: a half second stays in its second, and
    [1 - 2^-21] is rounded up to the next one. *)
Example rounded_second_examples :
  rounded_second (NFloat one_half) = Some 0%Z
  ∧ rounded_second (NFloat half_past) = Some 1700000000%Z
  ∧ rounded_second (NFloat almost_one) = Some 1%Z
  ∧ rounded_second (NInt 5) = Some 5%Z.
Proof. repeat split; reflexivity. Qed.

(** The second a timestamp is converted at is unique, and exists for every
    number but NaN and the infinities. *)
Lemma converted_second_parts n t :
  converted_second n t → ∃ us, timestamp_parts n = Ok (t, us).
Proof.
  unfold converted_second. intros Hr.
  destruct n as [i|x].
  - injection Hr as <-. by exists 0%Z.
  - destruct (timestamp_parts_finite x) as (t' & us & Hparts).
    { cbn in Hr. by destruct (float_ratio x). }
    pose proof (timestamp_parts_float x t' us Hparts) as Hr'.
    exists us. congruence.
Qed.

(** C4, as the specification states it, fails on the code: the conversion of
    the specification truncates to whole seconds, and the float [1 - 2^-21]
    truncates to the second 0, whose text is [1970-01-01T00:00:00Z];
    substituted from [metadata.conversation_create_time], it is stored as
    the text of the second 1. *)
Lemma fallback_conversion_not_truncated :
  timestamp_unusable msg_fallback_almost_one
  ∧ conversation_create_time msg_fallback_almost_one
    = Some (VFloat almost_one)
  ∧ whole_seconds (NFloat almost_one) = Some 0%Z
  ∧ iso_of_seconds 0 = "1970-01-01T00:00:00Z"
  ∧ clean_messages [msg_fallback_almost_one]
    = Ok [msg_fallback_almost_one_cleaned]
  ∧ msg_fallback_almost_one_cleaned !! "timestamp"
    = Some (VStr "1970-01-01T00:00:01Z").
Proof. split; [right; left|repeat split]; reflexivity. Qed.

(** C4, amended: for every surviving record whose input [timestamp] is
    missing, null, the empty string or ["null"]: when
    [metadata.conversation_create_time] is present and numeric, the output
    [timestamp] is the text [YYYY-MM-DDTHH:MM:SSZ] of the UTC second the
    value is converted at (the value itself for an integer; for a float its
    floor, or the next whole second when the float lies within half a
    microsecond below it), a text that parses back to that second; when it
    is absent or null, the output record has no [timestamp] key. *)
Theorem fallback_timestamp_outcome msgs out :
  clean_messages msgs = Ok out →
  Forall2 fallback_outcome (List.filter survives msgs) out.
Proof.
  intros H%clean_messages_Ok.
  eapply List.Forall2_impl; [apply cleaned_fallback_outcome | exact H].
Qed.

Lemma fallback_timestamp_outcome_witness :
  clean_messages [scenario_2; scenario_3; scenario_4; msg_fallback_almost_one]
  = Ok [scenario_2_cleaned; scenario_4; msg_fallback_almost_one_cleaned]
  ∧ Forall2 fallback_outcome
      (List.filter survives
         [scenario_2; scenario_3; scenario_4; msg_fallback_almost_one])
      [scenario_2_cleaned; scenario_4; msg_fallback_almost_one_cleaned].
Proof.
  split; [reflexivity|].
  apply (fallback_timestamp_outcome
           [scenario_2; scenario_3; scenario_4; msg_fallback_almost_one]).
  reflexivity.
Defined.

(** C5, as the specification states it, fails on the code: the float
    timestamp [1 - 2^-21] truncates to the second 0, but its output parses
    back to the second 1. *)
Lemma float_second_not_truncated :
  valid_binary 53 1024 almost_one = true
  ∧ whole_seconds (NFloat almost_one) = Some 0%Z
  ∧ float_trunc almost_one = Some 0%Z
  ∧ clean_messages [msg_almost_one] = Ok [msg_almost_one_cleaned]
  ∧ msg_almost_one_cleaned !! "timestamp" = Some (VStr "1970-01-01T00:00:01Z")
  ∧ parse_iso_utc "1970-01-01T00:00:01Z" = Some 1%Z.
Proof. repeat split; reflexivity. Qed.

(** C5, amended: for every surviving record whose input [timestamp] is
    numeric, the output [timestamp] is a string of the form
    [YYYY-MM-DDTHH:MM:SSZ] that parses back, as a UTC instant, to the second
    the input is converted at: the input itself when it is an integer and,
    when it is a float, its floor, unless the float lies within half a
    microsecond below the next whole second, which it is then rounded up
    to.  Half a microsecond is [(1/2 + 2^-34) / 10^6] seconds for a float
    that is not negative and [(1/2 + 2^-54) / 10^6] seconds for a negative
    one. *)
Theorem numeric_timestamp_round_trip msgs out :
  clean_messages msgs = Ok out →
  Forall2 numeric_outcome (List.filter survives msgs) out.
Proof.
  intros H%clean_messages_Ok.
  eapply List.Forall2_impl; [apply cleaned_numeric_outcome | exact H].
Qed.

Lemma numeric_timestamp_round_trip_witness :
  clean_messages [scenario_1; msg_almost_one; msg_one_half; msg_half_past]
  = Ok [scenario_1_cleaned; msg_almost_one_cleaned; scenario_1_cleaned;
        msg_half_past_cleaned]
  ∧ Forall2 numeric_outcome
      (List.filter survives
         [scenario_1; msg_almost_one; msg_one_half; msg_half_past])
      [scenario_1_cleaned; msg_almost_one_cleaned; scenario_1_cleaned;
       msg_half_past_cleaned].
Proof.
  split; [reflexivity|].
  apply (numeric_timestamp_round_trip
           [scenario_1; msg_almost_one; msg_one_half; msg_half_past]).
  reflexivity.
Defined.

(** C6, as the specification states it, fails on the code: the sub-second
    part of the float [1 - 2^-21] is not discarded, the conversion gives the
    text of the second 1 and not of the second 0. *)
Lemma conversion_rounds_up :
  whole_seconds (NFloat almost_one) = Some 0%Z
  ∧ iso_of_seconds 0 = "1970-01-01T00:00:00Z"
  ∧ numeric_ts_to_iso (NFloat almost_one) = Ok "1970-01-01T00:00:01Z".
Proof. repeat split; reflexivity. Qed.

(** C6, amended: [numeric_ts_to_iso] reads its argument as seconds since the
    Unix epoch in UTC and formats, as [YYYY-MM-DDTHH:MM:SSZ], the whole
    second the argument is converted at: the integer itself, or the floor
    of the float, or the next whole second when the float lies within half
    a microsecond below it ([(1/2 + 2^-34) / 10^6] seconds for a float that
    is not negative, [(1/2 + 2^-54) / 10^6] seconds for a negative one);
    the rest of the sub-second part is discarded.  The text parses back to
    that second; for the epoch value 0 it is exactly
    ["1970-01-01T00:00:00Z"].  The conversion raises only when that second
    lies outside the years 1 to 9999, or when there is none (NaN and the
    infinities). *)
Theorem numeric_ts_to_iso_utc ts :
  numeric_ts_to_iso (NInt 0) = Ok "1970-01-01T00:00:00Z"
  ∧ match numeric_ts_to_iso ts with
    | Ok s =>
        ∃ t, converted_second ts t
             ∧ (min_timestamp <= t <= max_timestamp)%Z
             ∧ s = iso_of_seconds t
             ∧ matches_iso_format s = true
             ∧ parse_iso_utc s = Some t
    | Raise _ =>
        ∀ t, converted_second ts t →
             (t < min_timestamp ∨ max_timestamp < t)%Z
    end.
Proof.
  split; [reflexivity|].
  destruct (numeric_ts_to_iso ts) as [s|e] eqn:E.
  - apply numeric_ts_to_iso_Ok in E as (t & us & Hparts & Ht & ->).
    destruct (parse_iso_of_seconds t Ht) as [Hfmt Hparse].
    exists t. repeat split; try done; try lia.
    by eapply timestamp_parts_converted.
  - intros t [us Hparts]%converted_second_parts.
    destruct (Z.lt_ge_cases t min_timestamp) as [|H1]; [by left|].
    destruct (Z.lt_ge_cases max_timestamp t) as [|H2]; [by right|].
    assert (numeric_ts_to_iso ts = Ok (iso_of_seconds t)) as E'.
    { apply numeric_ts_to_iso_Ok. exists t, us. auto. }
    congruence.
Qed.

(** C7: a record whose [content] is present and the empty string is dropped,
    whatever its other fields: the loop body skips it, and the result of the
    whole run is the result of the run without it. *)
Theorem empty_content_is_dropped before msg after :
  msg !! "content" = Some (VStr "") →
  clean_message msg = Ok None
  ∧ clean_messages (before ++ msg :: after) = clean_messages (before ++ after).
Proof.
  intros Hc.
  assert (has_empty_content msg = true) as He
    by (apply has_empty_content_spec; auto).
  split; [by apply clean_message_None | by apply clean_messages_skip].
Qed.

Lemma empty_content_is_dropped_witness :
  scenario_3 !! "content" = Some (VStr "")
  ∧ clean_message scenario_3 = Ok None
  ∧ clean_messages ([scenario_1] ++ scenario_3 :: [scenario_4])
    = clean_messages ([scenario_1] ++ [scenario_4]).
Proof.
  split; [reflexivity|].
  apply (empty_content_is_dropped [scenario_1] scenario_3 [scenario_4]).
  reflexivity.
Defined.

(** C8: the output list is the list of the surviving records, the very
    objects of the input, in the order of the input, with nothing reordered,
    duplicated or inserted; each has been cleaned in place, and the values
    are those of the loop on values.  When the loop raises, so does the loop
    on values. *)
Theorem survivors_in_input_order σ messages :
  match InPlace.clean_messages σ messages with
  | Ok (σ', out) =>
      out = List.filter (λ l, survives (σ l)) messages
      ∧ Forall (λ l, cleaned_as (σ l) (σ' l)) out
      ∧ (∀ l, l ∉ out → σ' l = σ l)
      ∧ clean_messages (σ <$> messages) = Ok (σ' <$> out)
  | Raise e => clean_messages (σ <$> messages) = Raise e
  end.
Proof.
  unfold InPlace.clean_messages, clean_messages.
  pose proof (clean_loop_in_place σ messages [] []) as H.
  destruct (InPlace.clean_loop σ messages []) as [[σ' out]|e]; [|done].
  destruct H as (_ & outs & -> & -> & Hin & Hout & Hpure).
  cbn [app] in *. repeat split; try done.
  apply Forall_forall. intros l Hl. apply Hin. by apply list_elem_of_In.
Qed.

(** C9: in every surviving record, every key other than [timestamp] maps to
    the same value, or to none, in the output as in the input. *)
Theorem other_fields_unchanged msgs out :
  clean_messages msgs = Ok out →
  Forall2 same_other_fields (List.filter survives msgs) out.
Proof.
  intros H%clean_messages_Ok.
  eapply List.Forall2_impl; [apply cleaned_same_other_fields | exact H].
Qed.

Lemma other_fields_unchanged_witness :
  clean_messages [scenario_1; scenario_2; scenario_3]
  = Ok [scenario_1_cleaned; scenario_2_cleaned]
  ∧ Forall2 same_other_fields
      (List.filter survives [scenario_1; scenario_2; scenario_3])
      [scenario_1_cleaned; scenario_2_cleaned].
Proof.
  split; [reflexivity|].
  apply (other_fields_unchanged [scenario_1; scenario_2; scenario_3]).
  reflexivity.
Defined.

(** C10, as the specification states it, fails on the code in its
    parenthesis: the output can hold a sentinel timestamp that is left to
    substitute.  The record [msg_string_fallback] is returned with its null
    [timestamp], although [metadata.conversation_create_time] holds a
    string to put in its place. *)
Lemma sentinel_timestamp_left :
  clean_messages [msg_string_fallback] = Ok [msg_string_fallback]
  ∧ msg_string_fallback !! "timestamp" = Some VNone
  ∧ fallback_consulted msg_string_fallback = true
  ∧ conversation_create_time msg_string_fallback
    = Some (VStr "2021-05-01T00:00:00Z").
Proof. repeat split; reflexivity. Qed.

(** The records of the output have nothing left to clean. *)
Lemma cleaned_nothing_left msg msg' :
  cleaned_as msg msg' → nothing_left_to_clean msg'.
Proof.
  intros Hc. split; [|split].
  - pose proof (cleaned_as_survives _ _ (clean_message_idempotent _ _ Hc)) as Hs.
    unfold survives in Hs. apply negb_true_iff in Hs.
    split; intros Hcontent;
      assert (has_empty_content msg' = true) as He
        by (apply has_empty_content_spec; auto);
      congruence.
  - apply clean_message_Some in Hc as (_ & ts & Hts & Hk).
    intros v Hv.
    destruct Hk as [n s _ _ -> | _ -> | Hn Hne ->].
    + rewrite lookup_insert_eq in Hv. by injection Hv as <-.
    + by rewrite lookup_delete_eq in Hv.
    + unfold fallback_timestamp, dict_get in Hts. rewrite Hv in Hts.
      change (default VNone (Some v)) with v in Hts.
      destruct (py_in v _) eqn:Hin; [|congruence].
      destruct (isinstance_int_float v) as [n|] eqn:En; [|done].
      by rewrite (numeric_not_sentinel v n En) in Hin.
  - intros Hcons.
    apply clean_message_idempotent, clean_message_Some in Hc
      as (_ & ts & Hts & Hk).
    unfold fallback_timestamp in Hts.
    rewrite <- fallback_consulted_spec, Hcons in Hts.
    unfold conversation_create_time, dict_get in *.
    assert (∀ w : option pyval,
              kept msg' (default VNone w) msg' →
              (msg' !! "timestamp" = None ∧ (w = None ∨ w = Some VNone))
              ∨ (∃ v, w = Some v ∧ isinstance_int_float v = None ∧ v ≠ VNone))
      as Hshape.
    { intros w Hk'.
      destruct Hk' as [n s _ Hs Heq | Hnone Heq | Hn Hne _].
      - exfalso.
        assert (msg' !! "timestamp" = Some (VStr s)) as Hv
          by (rewrite Heq; apply lookup_insert_eq).
        rewrite fallback_consulted_spec in Hcons. unfold dict_get in Hcons.
        rewrite Hv in Hcons. change (default VNone (Some (VStr s))) with (VStr s) in Hcons.
        by rewrite (iso_not_sentinel _ _ Hs) in Hcons.
      - left. split; [rewrite Heq; apply lookup_delete_eq|].
        destruct w as [v|]; [right|by left]. cbn in Hnone. by subst.
      - right. destruct w as [v|]; [|done]. by exists v. }
    destruct (msg' !! "metadata") as [[| | | | | |d]|]; try discriminate;
      cbn in Hts; injection Hts as <-.
    + by apply Hshape.
    + destruct (Hshape None Hk) as [[? _]|(v & [=] & _)]. left. auto.
Qed.

(** C10, amended: cleaning is idempotent: the output of [clean_messages],
    cleaned again, is returned unchanged.  Its records have a content that
    is present and not empty and no numeric timestamp; a timestamp that the
    fallback would consult again (missing, null, the empty string or
    ["null"]) is left only where [metadata.conversation_create_time] is
    absent or null, and the record then has no [timestamp] key, or is a
    value that is neither a number nor null, which the cleaner does not
    store. *)
Theorem clean_messages_idempotent msgs out :
  clean_messages msgs = Ok out →
  clean_messages out = Ok out ∧ Forall nothing_left_to_clean out.
Proof.
  intros H%clean_messages_Ok. split.
  - apply clean_messages_Ok.
    assert (Forall (λ msg', cleaned_as msg' msg') out) as Hfix.
    { apply Forall2_Forall_r with (Q := λ msg', cleaned_as msg' msg') in H;
        [done|].
      apply Forall_forall. intros msg _ msg' Hc.
      by eapply clean_message_idempotent. }
    clear H. induction Hfix as [|msg' out Hc _ IH]; [constructor|].
    cbn [List.filter]. rewrite (cleaned_as_survives _ _ Hc). by constructor.
  - apply Forall2_Forall_r with (Q := nothing_left_to_clean) in H; [done|].
    apply Forall_forall. intros msg _ msg' Hc. by eapply cleaned_nothing_left.
Qed.

Lemma clean_messages_idempotent_witness :
  clean_messages
    [scenario_1; scenario_2; scenario_3; scenario_4; scenario_5;
     msg_string_fallback]
  = Ok [scenario_1_cleaned; scenario_2_cleaned; scenario_4; scenario_5;
        msg_string_fallback]
  ∧ clean_messages
      [scenario_1_cleaned; scenario_2_cleaned; scenario_4; scenario_5;
       msg_string_fallback]
    = Ok [scenario_1_cleaned; scenario_2_cleaned; scenario_4; scenario_5;
          msg_string_fallback]
  ∧ Forall nothing_left_to_clean
      [scenario_1_cleaned; scenario_2_cleaned; scenario_4; scenario_5;
       msg_string_fallback].
Proof.
  split; [reflexivity|].
  apply (clean_messages_idempotent
           [scenario_1; scenario_2; scenario_3; scenario_4; scenario_5;
            msg_string_fallback]).
  reflexivity.
Defined.

(** * Further properties of the code *)

Import Observations.

(** ** Helper facts *)

Lemma survives_has_content msg : survives msg = has_content msg.
Proof.
  unfold survives, has_content, has_empty_content, dict_get.
  destruct (msg !! "content") as [[]|]; reflexivity.
Qed.

(** The accumulator only prefixes the result of the loop. *)
Lemma clean_loop_acc msgs acc :
  clean_loop msgs acc = (out ← clean_loop msgs []; Ok (acc ++ out)).
Proof.
  revert acc. induction msgs as [|msg rest IH]; intros acc; cbn [clean_loop].
  { cbn. by rewrite app_nil_r. }
  destruct (clean_message msg) as [[msg'|]|e]; cbn; [|apply IH|done].
  rewrite (IH (acc ++ [msg'])), (IH [msg']).
  destruct (clean_loop rest []) as [out|e]; cbn; [|done].
  by rewrite <- app_assoc.
Qed.


Lemma numeric_ts_to_iso_Raise n e :
  numeric_ts_to_iso n = Raise e → in_datetime_range n = false.
Proof.
  intros Hr. destruct (in_datetime_range n) eqn:Hin; [|done].
  unfold in_datetime_range in Hin.
  destruct (timestamp_parts n) as [[t us]|] eqn:Hparts; [|done].
  apply andb_true_iff in Hin as [H1%Z.leb_le H2%Z.leb_le].
  assert (numeric_ts_to_iso n = Ok (iso_of_seconds t)) as E.
  { apply numeric_ts_to_iso_Ok. exists t, us. auto. }
  congruence.
Qed.




(** The loop raises as soon as one loop body raises. *)
Lemma clean_loop_Raise msgs acc e :
  clean_loop msgs acc = Raise e ↔
  ∃ before msg after,
    msgs = before ++ msg :: after
    ∧ (∃ out, clean_loop before [] = Ok out)
    ∧ clean_message msg = Raise e.
Proof.
  split.
  - revert acc. induction msgs as [|msg rest IH]; intros acc; [discriminate|].
    cbn [clean_loop].
    destruct (clean_message msg) as [o|e'] eqn:E; cbn.
    + intros (before & m & after & -> & [out Hout] & Hm)%IH.
      exists (msg :: before), m, after. split; [done|]. split; [|done].
      cbn [clean_loop]. rewrite E. cbn.
      rewrite clean_loop_acc, Hout. cbn. eauto.
    + intros [= ->]. exists [], msg, rest. split; [done|].
      split; [by exists []|done].
  - intros (before & msg & after & -> & [out Hout] & Hm).
    rewrite clean_loop_app, clean_loop_acc, Hout. cbn. by rewrite Hm.
Qed.

(** ** Counting, failing and composing *)

(** X1: a run that returns gives one record for each input record that has
    a [content] other than the empty string, and never more records than it
    was given. *)
Theorem output_count msgs out :
  clean_messages msgs = Ok out →
  List.length out = List.length (List.filter has_content msgs)
  ∧ (List.length out ≤ List.length msgs)%nat.
Proof.
  intros [Hlen Hle]%output_length. split; [|done].
  rewrite Hlen. f_equal. apply List.filter_ext, survives_has_content.
Qed.

Lemma output_count_witness :
  clean_messages [scenario_1; scenario_3; msg_without_content; scenario_5]
  = Ok [scenario_1_cleaned; scenario_5]
  ∧ List.length [scenario_1_cleaned; scenario_5]
    = List.length (List.filter has_content
        [scenario_1; scenario_3; msg_without_content; scenario_5])
  ∧ (List.length [scenario_1_cleaned; scenario_5]
     ≤ List.length [scenario_1; scenario_3; msg_without_content; scenario_5])%nat.
Proof.
  split; [reflexivity|].
  apply (output_count
           [scenario_1; scenario_3; msg_without_content; scenario_5]).
  reflexivity.
Defined.

(** X2: a run raises exactly the exception of the first record whose loop
    body raises: the records before it are cleaned without error, and
    nothing is returned for them. *)
Theorem first_failure_is_raised msgs e :
  clean_messages msgs = Raise e ↔
  ∃ before msg after,
    msgs = before ++ msg :: after
    ∧ (∃ out, clean_messages before = Ok out)
    ∧ clean_message msg = Raise e.
Proof. apply clean_loop_Raise. Qed.

Lemma first_failure_is_raised_witness :
  clean_messages [scenario_1; msg_null_metadata; msg_year_10000]
  = Raise AttributeError.
Proof.
  apply first_failure_is_raised.
  exists [scenario_1], msg_null_metadata, [msg_year_10000].
  split; [reflexivity|]. split; [|reflexivity].
  exists [scenario_1_cleaned]. reflexivity.
Defined.

(** X3: records are cleaned independently of one another: the run on a
    concatenation is the run on the first part followed by the run on the
    second, with the results appended and the first exception raised. *)
Theorem clean_messages_app msgs1 msgs2 :
  clean_messages (msgs1 ++ msgs2)
  = then_append (clean_messages msgs1) (clean_messages msgs2).
Proof.
  unfold clean_messages, then_append. rewrite clean_loop_app.
  destruct (clean_loop msgs1 []) as [out1|e]; cbn; [|done].
  apply clean_loop_acc.
Qed.

(** X4: a list of records that all have content and a timestamp of their
    own that is neither a sentinel nor a number is returned as it is,
    whatever the records hold in [metadata]. *)
Theorem settled_records_returned_as_is msgs :
  Forall (λ msg, settled msg = true) msgs →
  clean_messages msgs = Ok msgs.
Proof.
  intros Hall. apply clean_messages_Ok.
  induction Hall as [|msg rest Hmsg _ IH]; [constructor|].
  unfold settled in Hmsg.
  apply andb_true_iff in Hmsg as [[Hc Hcons]%andb_true_iff Hts].
  apply negb_true_iff in Hcons.
  destruct (msg !! "timestamp") as [v|] eqn:Hv; [|discriminate].
  destruct (isinstance_int_float v) eqn:Hn; [discriminate|].
  assert (cleaned_as msg msg) as Hfix.
  { apply clean_message_Some. split.
    - apply survives_true. by rewrite survives_has_content.
    - exists v. split.
      + apply fallback_timestamp_own; [done|].
        rewrite fallback_consulted_spec in Hcons.
        unfold dict_get in Hcons. by rewrite Hv in Hcons.
      + apply kept_as_is; [done| |done]. intros ->.
        unfold fallback_consulted in Hcons. by rewrite Hv in Hcons. }
  cbn [List.filter]. rewrite (cleaned_as_survives _ _ Hfix). by constructor.
Qed.

Lemma settled_records_returned_as_is_witness :
  Forall (λ msg, settled msg = true)
    [scenario_5; <["metadata" := VNone]> scenario_5; scenario_1_cleaned]
  ∧ clean_messages
      [scenario_5; <["metadata" := VNone]> scenario_5; scenario_1_cleaned]
    = Ok [scenario_5; <["metadata" := VNone]> scenario_5; scenario_1_cleaned].
Proof.
  assert (Forall (λ msg, settled msg = true)
            [scenario_5; <["metadata" := VNone]> scenario_5;
             scenario_1_cleaned]) as H by (repeat constructor).
  split; [exact H|].
  exact (settled_records_returned_as_is _ H).
Defined.

(** X5: when the record's own [timestamp] is usable, [metadata] is never
    looked at: setting [metadata] to any value, a null or a string included,
    changes nothing in the outcome but that field. *)
Theorem usable_timestamp_ignores_metadata msg v :
  fallback_consulted msg = false →
  clean_message (<["metadata" := v]> msg)
  = match clean_message msg with
    | Ok (Some msg') => Ok (Some (<["metadata" := v]> msg'))
    | r => r
    end.
Proof.
  intros Hcons. unfold clean_message.
  rewrite (has_empty_content_ext msg (<["metadata" := v]> msg))
    by (by rewrite lookup_insert_ne).
  destruct (has_empty_content msg); [done|].
  assert (∃ ts, msg !! "timestamp" = Some ts
                ∧ py_in ts [LNone; LStr ""; LStr "null"] = false)
    as (ts & Hts & Hin).
  { rewrite fallback_consulted_spec in Hcons. unfold dict_get in Hcons.
    destruct (msg !! "timestamp") as [ts|]; [|discriminate]. eauto. }
  rewrite (fallback_timestamp_own msg ts Hts Hin).
  rewrite (fallback_timestamp_own (<["metadata" := v]> msg) ts)
    by (done || by rewrite lookup_insert_ne).
  cbn. unfold normalise_timestamp.
  destruct (isinstance_int_float ts) as [n|].
  - destruct (numeric_ts_to_iso n) as [s|e]; cbn; [|done].
    by rewrite insert_insert_ne.
  - destruct (is_None ts); cbn; [|done].
    by rewrite delete_insert_ne.
Qed.

Lemma usable_timestamp_ignores_metadata_witness :
  fallback_consulted scenario_1 = false
  ∧ clean_message (<["metadata" := VNone]> scenario_1)
    = match clean_message scenario_1 with
      | Ok (Some msg') => Ok (Some (<["metadata" := VNone]> msg'))
      | r => r
      end.
Proof.
  split; [reflexivity|].
  apply (usable_timestamp_ignores_metadata scenario_1 VNone). reflexivity.
Defined.

(** ** What the output holds *)

(** X6: no record of the output has a missing or empty [content], and none
    has a numeric [timestamp]: every number has been converted. *)
Theorem output_has_content_and_no_number msgs out :
  clean_messages msgs = Ok out →
  Forall (λ msg', has_content msg' = true
                  ∧ ∀ v, msg' !! "timestamp" = Some v →
                         isinstance_int_float v = None) out.
Proof.
  intros H%cleaned_output_shape.
  eapply List.Forall_impl; [|exact H]. intros msg' [Hs Hts]. split; [|done].
  by rewrite <- survives_has_content.
Qed.

Lemma output_has_content_and_no_number_witness :
  clean_messages [scenario_1; scenario_2; scenario_3; msg_string_fallback]
  = Ok [scenario_1_cleaned; scenario_2_cleaned; msg_string_fallback]
  ∧ Forall (λ msg', has_content msg' = true
                    ∧ ∀ v, msg' !! "timestamp" = Some v →
                           isinstance_int_float v = None)
      [scenario_1_cleaned; scenario_2_cleaned; msg_string_fallback].
Proof.
  split; [reflexivity|].
  apply (output_has_content_and_no_number
           [scenario_1; scenario_2; scenario_3; msg_string_fallback]).
  reflexivity.
Defined.

(** X7: the cleaner writes nothing into [timestamp] but an ISO text: for
    every record it keeps, the key is gone from the output, or holds a text
    of the form [YYYY-MM-DDTHH:MM:SSZ] that names an existing date and time
    of day in the years 1 to 9999, or the record is returned exactly as it
    came. *)
Theorem timestamp_gone_or_iso_or_untouched msgs out :
  clean_messages msgs = Ok out →
  Forall2 timestamp_settled_from (List.filter survives msgs) out.
Proof.
  intros H%clean_messages_Ok.
  eapply List.Forall2_impl; [|exact H].
  intros msg msg' (_ & ts & _ & Hk)%clean_message_Some.
  destruct Hk as [n s _ Hs -> | _ -> | _ _ ->].
  - right. left.
    apply numeric_ts_to_iso_Ok in Hs as (t & us & _ & Ht & ->).
    destruct (parse_iso_of_seconds t Ht) as [Hfmt Hparse].
    exists (iso_of_seconds t), t. rewrite lookup_insert_eq. done.
  - left. apply lookup_delete_eq.
  - right. by right.
Qed.

Lemma timestamp_gone_or_iso_or_untouched_witness :
  clean_messages [scenario_2; scenario_4; scenario_5]
  = Ok [scenario_2_cleaned; scenario_4; scenario_5]
  ∧ Forall2 timestamp_settled_from
      (List.filter survives [scenario_2; scenario_4; scenario_5])
      [scenario_2_cleaned; scenario_4; scenario_5].
Proof.
  split; [reflexivity|].
  apply (timestamp_gone_or_iso_or_untouched
           [scenario_2; scenario_4; scenario_5]).
  reflexivity.
Defined.

(** X8: cleaning the returned objects a second time, in place, returns the
    same references and changes no object of the store. *)
Theorem second_run_in_place_changes_nothing σ messages σ' out :
  InPlace.clean_messages σ messages = Ok (σ', out) →
  ∃ σ'', InPlace.clean_messages σ' out = Ok (σ'', out) ∧ ∀ l, σ'' l = σ' l.
Proof. apply in_place_idempotent. Qed.

(** ** When a run raises *)

(** X9: a run raises whenever one record is not tolerated, wherever it is in
    the list: a record that is kept and has a numeric working timestamp
    outside the years 1 to 9999, or a [metadata] that the fallback consults
    and that is not a mapping. *)
Theorem untolerated_record_fails_the_run msgs :
  Exists (λ msg, tolerated msg = false) msgs →
  ∃ e, clean_messages msgs = Raise e.
Proof.
  unfold clean_messages. generalize (@nil record) as acc.
  intros acc H. revert acc.
  induction H as [msg rest Hmsg | msg rest _ IH]; intros acc; cbn [clean_loop].
  - destruct (untolerated_record_raises msg Hmsg) as [e ->]. cbn. eauto.
  - destruct (clean_message msg) as [o|e]; cbn; [apply IH | eauto].
Qed.

Lemma untolerated_record_fails_the_run_witness :
  Exists (λ msg, tolerated msg = false)
    [scenario_1; scenario_3; msg_year_10000; scenario_4]
  ∧ ∃ e, clean_messages [scenario_1; scenario_3; msg_year_10000; scenario_4]
         = Raise e.
Proof.
  assert (Exists (λ msg, tolerated msg = false)
            [scenario_1; scenario_3; msg_year_10000; scenario_4]) as H.
  { apply Exists_cons_tl, Exists_cons_tl, Exists_cons_hd. reflexivity. }
  split; [exact H|].
  exact (untolerated_record_fails_the_run _ H).
Defined.

(** The four exceptions of the conversion, each at the first second that
    raises it: the year 10000, the year 2^31 after 1900, the second 2^63,
    and NaN. *)
Example conversion_exceptions :
  numeric_ts_to_iso (NInt 253402300800) = Raise ValueError
  ∧ numeric_ts_to_iso (NInt 67768036191676800) = Raise OSError
  ∧ numeric_ts_to_iso (NInt (2 ^ 63)) = Raise OverflowError
  ∧ numeric_ts_to_iso (NFloat S754_nan) = Raise ValueError
  ∧ numeric_ts_to_iso (NFloat (S754_infinity false)) = Raise OverflowError.
Proof. repeat split; reflexivity. Qed.



(** ** Order of the texts *)

Module OrderFacts.
Import Calendar CalendarFacts StrFacts IsoFacts Spec Observations.
#[local] Open Scope Z_scope.

(** The year of the era brackets the day of the era. *)
Lemma year_of_era_bracket doe :
  0 <= doe < 146097 →
  let yoe := (doe - doe / 1460 + doe / 36524 - doe / 146096) / 365 in
  0 <= yoe <= 399
  ∧ 365 * yoe + yoe / 4 - yoe / 100 <= doe
  ∧ doe <= 365 * yoe + yoe / 4 - yoe / 100 + 365
  ∧ (yoe < 399 → doe < 365 * (yoe + 1) + (yoe + 1) / 4 - (yoe + 1) / 100).
Proof. intros H yoe. subst yoe. div_lia. Qed.

(** Later days have later dates, in the order year, month, day. *)
Lemma civil_from_days_lt z1 z2 :
  z1 < z2 →
  let '(y1, m1, d1) := civil_from_days z1 in
  let '(y2, m2, d2) := civil_from_days z2 in
  y1 < y2 ∨ (y1 = y2 ∧ (m1 < m2 ∨ (m1 = m2 ∧ d1 < d2))).
Proof.
  intros Hlt. unfold civil_from_days. cbv zeta.
  set (era1 := (z1 + 719468) / 146097).
  set (era2 := (z2 + 719468) / 146097).
  set (doe1 := z1 + 719468 - era1 * 146097).
  set (doe2 := z2 + 719468 - era2 * 146097).
  assert (0 <= doe1 < 146097) as Hd1 by (subst doe1 era1; div_lia).
  assert (0 <= doe2 < 146097) as Hd2 by (subst doe2 era2; div_lia).
  assert (era1 < era2 ∨ (era1 = era2 ∧ doe1 < doe2)) as Hera
    by (subst doe1 doe2 era1 era2; div_lia).
  pose proof (year_of_era_bracket doe1 Hd1) as B1.
  pose proof (year_of_era_bracket doe2 Hd2) as B2.
  cbv zeta in B1, B2.
  set (yoe1 := (doe1 - doe1 / 1460 + doe1 / 36524 - doe1 / 146096) / 365) in *.
  set (yoe2 := (doe2 - doe2 / 1460 + doe2 / 36524 - doe2 / 146096) / 365) in *.
  clearbody yoe1 yoe2 doe1 doe2 era1 era2. clear Hlt.
  set (doy1 := doe1 - (365 * yoe1 + yoe1 / 4 - yoe1 / 100)).
  set (doy2 := doe2 - (365 * yoe2 + yoe2 / 4 - yoe2 / 100)).
  assert (0 <= doy1 <= 365) as Hy1 by (subst doy1; lia).
  assert (0 <= doy2 <= 365) as Hy2 by (subst doy2; lia).
  set (yy1 := yoe1 + era1 * 400). set (yy2 := yoe2 + era2 * 400).
  assert (yy1 < yy2 ∨ (yy1 = yy2 ∧ doy1 < doy2)) as Hyy.
  { subst yy1 yy2 doy1 doy2. destruct Hera as [He|[-> Hdoe]]; [lia|].
    destruct (Z.lt_trichotomy yoe1 yoe2) as [|[->|]]; [lia|lia|div_lia]. }
  clearbody yy1 yy2 doy1 doy2. clear -Hy1 Hy2 Hyy.
  case_compare; div_lia.
Qed.

(** Later seconds have later fields. *)
Lemma iso_fields_lt t1 t2 :
  t1 < t2 → lex_compare (iso_fields t1) (iso_fields t2) = Lt.
Proof.
  intros Hlt. unfold iso_fields, gmtime_fields. cbv zeta.
  assert (t1 / 86400 < t2 / 86400
          ∨ (t1 / 86400 = t2 / 86400 ∧ t1 mod 86400 < t2 mod 86400)) as Hd
    by div_lia.
  assert (0 <= t1 mod 86400 < 86400 ∧ 0 <= t2 mod 86400 < 86400) as [Hr1 Hr2]
    by div_lia.
  destruct Hd as [Hd|[Hd Hr]].
  - apply civil_from_days_lt in Hd.
    destruct (civil_from_days (t1 / 86400)) as [[y1 m1] d1].
    destruct (civil_from_days (t2 / 86400)) as [[y2 m2] d2].
    cbn [lex_compare tm_year tm_mon tm_mday tm_hour tm_min tm_sec].
    destruct Hd as [Hy|[-> [Hm|[-> Hdd]]]].
    + by rewrite (proj2 (Z.compare_lt_iff _ _) Hy).
    + by rewrite Z.compare_refl, (proj2 (Z.compare_lt_iff _ _) Hm).
    + by rewrite !Z.compare_refl, (proj2 (Z.compare_lt_iff _ _) Hdd).
  - rewrite Hd. destruct (civil_from_days (t2 / 86400)) as [[y m] d].
    cbn [lex_compare tm_year tm_mon tm_mday tm_hour tm_min tm_sec].
    rewrite !Z.compare_refl.
    generalize dependent (t1 mod 86400). intros r1 ? ?.
    generalize dependent (t2 mod 86400). intros r2 ? ?.
    destruct (Z.compare_spec (r1 / 3600) (r2 / 3600)); [|done|div_lia].
    destruct (Z.compare_spec (r1 mod 3600 / 60) (r2 mod 3600 / 60));
      [|done|div_lia].
    destruct (Z.compare_spec (r1 mod 60) (r2 mod 60)); [div_lia|done|div_lia].
Qed.

Lemma lex_compare_refl xs : lex_compare xs xs = Eq.
Proof. induction xs as [|x xs IH]; [done|]. cbn. by rewrite Z.compare_refl. Qed.

Lemma lex_compare_antisym xs ys :
  lex_compare ys xs = CompOpp (lex_compare xs ys).
Proof.
  revert ys. induction xs as [|x xs IH]; intros [|y ys]; try done.
  cbn. rewrite (Z.compare_antisym x y).
  destruct (x ?= y); cbn; [apply IH|done|done].
Qed.

(** The fields compare as the seconds do. *)
Lemma iso_fields_compare t1 t2 :
  lex_compare (iso_fields t1) (iso_fields t2) = (t1 ?= t2).
Proof.
  destruct (Z.compare_spec t1 t2) as [->|Hlt|Hgt].
  - apply lex_compare_refl.
  - by apply iso_fields_lt.
  - rewrite lex_compare_antisym, (iso_fields_lt t2 t1 Hgt). done.
Qed.

Lemma digit_char_compare x y :
  Ascii.compare (PyStr.digit_char (x mod 10)) (PyStr.digit_char (y mod 10))
  = (x mod 10 ?= y mod 10).
Proof.
  destruct (digit_char_spec x) as (k1 & Hk1 & -> & ->).
  destruct (digit_char_spec y) as (k2 & Hk2 & -> & ->).
  do 10 (destruct k1 as [|k1];
         [do 10 (destruct k2 as [|k2]; [reflexivity|]); lia|]).
  lia.
Qed.

Lemma compare_same_head c r1 r2 :
  (String c r1 ?= String c r2)%string = (r1 ?= r2)%string.
Proof.
  cbn [String.compare].
  assert (Ascii.compare c c = Eq) as -> by apply N.compare_refl. done.
Qed.

Lemma compare_field2 a b r1 r2 :
  0 <= a < 100 → 0 <= b < 100 →
  (String (PyStr.digit_char ((a / 10) mod 10))
     (String (PyStr.digit_char (a mod 10)) r1)
   ?= String (PyStr.digit_char ((b / 10) mod 10))
        (String (PyStr.digit_char (b mod 10)) r2))%string
  = match a ?= b with
    | Eq => (r1 ?= r2)%string
    | c => c
    end.
Proof.
  intros Ha Hb. cbn [String.compare]. rewrite !digit_char_compare.
  destruct (Z.compare_spec ((a / 10) mod 10) ((b / 10) mod 10));
    destruct (Z.compare_spec (a mod 10) (b mod 10));
    destruct (Z.compare_spec a b); try reflexivity; exfalso; div_lia.
Qed.

Lemma compare_field4 a b r1 r2 :
  0 <= a < 10000 → 0 <= b < 10000 →
  (String (PyStr.digit_char ((a / 10 / 10 / 10) mod 10))
     (String (PyStr.digit_char ((a / 10 / 10) mod 10))
        (String (PyStr.digit_char ((a / 10) mod 10))
           (String (PyStr.digit_char (a mod 10)) r1)))
   ?= String (PyStr.digit_char ((b / 10 / 10 / 10) mod 10))
        (String (PyStr.digit_char ((b / 10 / 10) mod 10))
           (String (PyStr.digit_char ((b / 10) mod 10))
              (String (PyStr.digit_char (b mod 10)) r2))))%string
  = match a ?= b with
    | Eq => (r1 ?= r2)%string
    | c => c
    end.
Proof.
  intros Ha Hb.
  assert (0 <= a / 10 / 10 < 100 ∧ 0 <= b / 10 / 10 < 100) as [Ha' Hb']
    by div_lia.
  pose proof (compare_field2 (a / 10 / 10) (b / 10 / 10)) as Hhi.
  rewrite Hhi by done.
  assert ((a / 10) mod 10 = ((a mod 100) / 10) mod 10) as -> by div_lia.
  assert ((b / 10) mod 10 = ((b mod 100) / 10) mod 10) as -> by div_lia.
  assert (a mod 10 = (a mod 100) mod 10) as -> by div_lia.
  assert (b mod 10 = (b mod 100) mod 10) as -> by div_lia.
  rewrite compare_field2 by div_lia.
  destruct (Z.compare_spec (a / 10 / 10) (b / 10 / 10));
    destruct (Z.compare_spec (a mod 100) (b mod 100));
    destruct (Z.compare_spec a b); try reflexivity; exfalso; div_lia.
Qed.

(** Two texts compare as their fields do. *)
Lemma iso_text_compare y1 m1 d1 h1 n1 s1 y2 m2 d2 h2 n2 s2 :
  0 <= y1 < 10000 → 0 <= m1 < 100 → 0 <= d1 < 100 →
  0 <= h1 < 100 → 0 <= n1 < 100 → 0 <= s1 < 100 →
  0 <= y2 < 10000 → 0 <= m2 < 100 → 0 <= d2 < 100 →
  0 <= h2 < 100 → 0 <= n2 < 100 → 0 <= s2 < 100 →
  (iso_text y1 m1 d1 h1 n1 s1 ?= iso_text y2 m2 d2 h2 n2 s2)%string
  = lex_compare [y1; m1; d1; h1; n1; s1] [y2; m2; d2; h2; n2; s2].
Proof.
  intros. unfold iso_text. rewrite !fmt_digits_2, !fmt_digits_4.
  cbv beta iota fix delta [String.append].
  rewrite compare_field4 by done. cbn [lex_compare].
  destruct (y1 ?= y2); [|done|done]. rewrite compare_same_head.
  rewrite compare_field2 by done.
  destruct (m1 ?= m2); [|done|done]. rewrite compare_same_head.
  rewrite compare_field2 by done.
  destruct (d1 ?= d2); [|done|done]. rewrite compare_same_head.
  rewrite compare_field2 by done.
  destruct (h1 ?= h2); [|done|done]. rewrite compare_same_head.
  rewrite compare_field2 by done.
  destruct (n1 ?= n2); [|done|done]. rewrite compare_same_head.
  rewrite compare_field2 by done.
  destruct (s1 ?= s2); done.
Qed.

(** The texts of two seconds of the years 1 to 9999 compare as the seconds. *)
Lemma iso_of_seconds_compare t1 t2 :
  min_timestamp <= t1 <= max_timestamp →
  min_timestamp <= t2 <= max_timestamp →
  (iso_of_seconds t1 ?= iso_of_seconds t2)%string = (t1 ?= t2).
Proof.
  intros Ht1 Ht2. rewrite <- iso_fields_compare.
  unfold iso_of_seconds, iso_fields. cbv zeta.
  pose proof (proj2 (year_in_range_iff t1) Ht1).
  pose proof (proj2 (year_in_range_iff t2) Ht2).
  pose proof (time_of_day t1) as (? & ? & ? & _).
  pose proof (time_of_day t2) as (? & ? & ? & _).
  pose proof (gmtime_fields_date t1) as Hdate1.
  pose proof (gmtime_fields_date t2) as Hdate2. cbv zeta in *.
  pose proof (days_from_civil_from_days (t1 / 86400)) as Hrt1.
  pose proof (days_from_civil_from_days (t2 / 86400)) as Hrt2.
  rewrite <- Hdate1 in Hrt1. rewrite <- Hdate2 in Hrt2.
  destruct Hrt1 as (_ & ? & ?). destruct Hrt2 as (_ & ? & ?).
  apply iso_text_compare; lia.
Qed.

End OrderFacts.

(** ** The conversion *)

(** X11: the texts of two integer timestamps compare, character by
    character, as the timestamps do: sorting the texts sorts the instants,
    and two different seconds never get the same text. *)
Theorem iso_texts_order_as_seconds a b sa sb :
  numeric_ts_to_iso (NInt a) = Ok sa →
  numeric_ts_to_iso (NInt b) = Ok sb →
  (sa ?= sb)%string = (a ?= b)%Z.
Proof.
  intros (ta & usa & [= <- <-] & Ha & ->)%numeric_ts_to_iso_Ok.
  intros (tb & usb & [= <- <-] & Hb & ->)%numeric_ts_to_iso_Ok.
  by apply OrderFacts.iso_of_seconds_compare.
Qed.

Lemma iso_texts_order_as_seconds_witness :
  numeric_ts_to_iso (NInt 951782399) = Ok "2000-02-28T23:59:59Z"
  ∧ numeric_ts_to_iso (NInt 951782400) = Ok "2000-02-29T00:00:00Z"
  ∧ ("2000-02-28T23:59:59Z" ?= "2000-02-29T00:00:00Z")%string
    = (951782399 ?= 951782400)%Z.
Proof.
  split; [reflexivity|]. split; [reflexivity|].
  apply (iso_texts_order_as_seconds 951782399 951782400); reflexivity.
Defined.




Lemma second_run_in_place_changes_nothing_witness :
  ∃ σ' out,
    InPlace.clean_messages sample_store [0; 1; 2; 0]%nat = Ok (σ', out)
    ∧ ∃ σ'', InPlace.clean_messages σ' out = Ok (σ'', out)
             ∧ ∀ l, σ'' l = σ' l.
Proof.
  eexists _, _. split; [reflexivity|].
  eapply (second_run_in_place_changes_nothing sample_store [0; 1; 2; 0]%nat).
  reflexivity.
Defined.

(** ** The script *)

Module ScriptFacts.
Import Script.

(** The loop on items that are dicts is the loop on records. *)
Lemma clean_items_dicts msgs acc :
  clean_items (VDict <$> msgs) (VDict <$> acc)
  = match clean_loop msgs acc with
    | Ok out => Ok (VDict <$> out)
    | Raise e => Raise e
    end.
Proof.
  revert acc. induction msgs as [|msg rest IH]; intros acc; [done|].
  cbn [fmap list_fmap clean_items clean_loop clean_item].
  destruct (clean_message msg) as [[msg'|]|e]; cbn.
  - rewrite <- IH. by rewrite fmap_app.
  - apply IH.
  - reflexivity.
Qed.

(** An item that is not a dict makes the loop raise, unless an item before
    it did. *)
Lemma clean_items_non_object items acc :
  Exists (λ v, ∀ d, v ≠ VDict d) items →
  ∃ e, clean_items items acc = Raise e.
Proof.
  intros H. revert acc.
  induction H as [v rest Hv | v rest _ IH]; intros acc; cbn [clean_items].
  - destruct v; cbn; eauto. by destruct (Hv d).
  - destruct (clean_item v) as [o|e]; cbn; [apply IH | eauto].
Qed.

(** A loop that returns went through objects only. *)
Lemma clean_items_objects items acc out :
  clean_items items acc = Ok out → ∃ msgs, items = VDict <$> msgs.
Proof.
  revert acc. induction items as [|item rest IH]; intros acc; [by exists []|].
  cbn [clean_items]. destruct item as [| | | | | |d]; try discriminate.
  destruct (clean_item (VDict d)) as [o|e]; cbn; [|discriminate].
  intros [msgs ->]%IH. by exists (d :: msgs).
Qed.

Lemma filter_object_with_content msgs :
  List.length (List.filter object_with_content (VDict <$> msgs))
  = List.length (List.filter Observations.has_content msgs).
Proof.
  induction msgs as [|msg rest IH]; [done|].
  cbn [fmap list_fmap List.filter].
  change (object_with_content (VDict msg)) with (Observations.has_content msg).
  destruct (Observations.has_content msg); cbn [List.length]; by rewrite <- IH.
Qed.

(** The run of [main], case by case. *)
Lemma run_main_cases file h :
  run_main file h
  = match path_exists h (INPUT_FILE file) with
    | Some true =>
        match json_load h (INPUT_FILE file) with
        | Some doc =>
            match clean_messages_any doc with
            | Done out =>
                if json_dump h (OUTPUT_FILE file) (VList out)
                then ([Exists_called (INPUT_FILE file) (Some true);
                       Load_called (INPUT_FILE file) (Some doc);
                       Dump_called (OUTPUT_FILE file) (VList out) true;
                       Printed (summary file out)
                         (print_line h (summary file out))],
                      if print_line h (summary file out)
                      then Done tt else Failed HostError)
                else ([Exists_called (INPUT_FILE file) (Some true);
                       Load_called (INPUT_FILE file) (Some doc);
                       Dump_called (OUTPUT_FILE file) (VList out) false],
                      Failed HostError)
            | Failed e =>
                ([Exists_called (INPUT_FILE file) (Some true);
                  Load_called (INPUT_FILE file) (Some doc)], Failed e)
            end
        | None =>
            ([Exists_called (INPUT_FILE file) (Some true);
              Load_called (INPUT_FILE file) None], Failed HostError)
        end
    | Some false =>
        ([Exists_called (INPUT_FILE file) (Some false)],
         Failed (FileNotFoundError
                   ("Input file not found: " ++ path_text (INPUT_FILE file))))
    | None => ([Exists_called (INPUT_FILE file) None], Failed HostError)
    end.
Proof.
  unfold run_main, main, call_exists, call_load, call_dump, call_print,
    pure_step, raise, mbind, io_bind. cbn [app].
  destruct (path_exists h (INPUT_FILE file)) as [[|]|]; cbn; [|done..].
  destruct (json_load h (INPUT_FILE file)) as [doc|]; cbn; [|done].
  destruct (clean_messages_any doc) as [out|e]; cbn; [|done].
  by destruct (json_dump h (OUTPUT_FILE file) (VList out)).
Qed.

Lemma output_is_not_input file : OUTPUT_FILE file ≠ INPUT_FILE file.
Proof. unfold OUTPUT_FILE, INPUT_FILE, with_name. intros [=]. Qed.

(** The digits of a number hold no comma. *)
Lemma digits_not_comma d :
  Forall (λ c, not_comma c = true)
    (list_ascii_of_string (NilEmpty.string_of_uint d)).
Proof. induction d; cbn; constructor; done. Qed.

Lemma str_of_nat_not_comma n :
  Forall (λ c, not_comma c = true) (list_ascii_of_string (str_of_nat n)).
Proof.
  unfold str_of_nat, NilZero.string_of_uint.
  destruct (N.to_uint (N.of_nat n)) eqn:E;
    try (rewrite <- E; apply digits_not_comma).
  repeat constructor.
Qed.

Lemma filter_all {A} (f : A → bool) l :
  Forall (λ x, f x = true) l → List.filter f l = l.
Proof.
  induction 1 as [|x l Hx _ IH]; [done|]. cbn. by rewrite Hx, IH.
Qed.

Lemma group3_more a b c d rest :
  group3 (a :: b :: c :: d :: rest)
  = a :: b :: c :: ","%char :: group3 (d :: rest).
Proof. reflexivity. Qed.

(** Taking the commas out of the grouped digits gives the digits back. *)
Lemma filter_group3 ds :
  Forall (λ c, not_comma c = true) ds →
  List.filter not_comma (group3 ds) = ds.
Proof.
  remember (List.length ds) as n eqn:Hn. revert ds Hn.
  induction n as [n IH] using lt_wf_ind. intros ds Hn Hds.
  destruct ds as [|a [|b [|c [|d rest]]]]; try by apply filter_all.
  apply Forall_cons_iff in Hds as [Ha Hds].
  apply Forall_cons_iff in Hds as [Hb Hds].
  apply Forall_cons_iff in Hds as [Hc Hds].
  rewrite group3_more. cbn [List.filter]. rewrite Ha, Hb, Hc.
  change (not_comma ",") with false. cbn match.
  do 3 f_equal. apply (IH (List.length (d :: rest))); [|done|done].
  subst n. cbn [List.length]. lia.
Qed.

(** The summary count reads back as the number it was made from. *)
Lemma read_format_thousands n :
  read_thousands (format_thousands n) = Some (N.of_nat n).
Proof.
  unfold read_thousands, format_thousands.
  rewrite list_ascii_of_string_of_list_ascii, List.filter_rev.
  rewrite filter_group3
    by (apply Forall_rev, str_of_nat_not_comma).
  rewrite rev_involutive, string_of_list_ascii_of_string.
  unfold str_of_nat. rewrite NilZero.usu.
  - by rewrite DecimalN.Unsigned.of_to.
  - destruct (N.of_nat n); [discriminate|].
    apply DecimalPos.Unsigned.to_uint_nonnil.
Qed.

Lemma comma_groups_no_comma ds :
  Forall (λ c, not_comma c = true) ds → comma_groups ds = [ds].
Proof.
  induction 1 as [|c ds Hc _ IH]; [done|]. cbn [comma_groups].
  unfold not_comma in Hc. apply negb_true_iff in Hc. by rewrite Hc, IH.
Qed.

(** The grouped digits, cut at the commas, are groups of three digits and a
    last group of one to three. *)
Lemma comma_groups_group3 ds :
  ds ≠ [] → Forall (λ c, not_comma c = true) ds →
  ∃ gs g, comma_groups (group3 ds) = gs ++ [g]
          ∧ Forall (λ x, List.length x = 3%nat) gs
          ∧ (1 ≤ List.length g ≤ 3)%nat
          ∧ concat (gs ++ [g]) = ds.
Proof.
  remember (List.length ds) as n eqn:Hn. revert ds Hn.
  induction n as [n IH] using lt_wf_ind. intros ds Hn Hne Hds.
  destruct ds as [|a [|b [|c [|d rest]]]]; [done|..].
  1-3: exists []; eexists; cbn [group3 app];
       rewrite (comma_groups_no_comma _ Hds);
       repeat split; cbn; (lia || done || by rewrite app_nil_r).
  rewrite group3_more.
  apply Forall_cons_iff in Hds as [Ha Hds].
  apply Forall_cons_iff in Hds as [Hb Hds].
  apply Forall_cons_iff in Hds as [Hc Hds].
  destruct (IH (List.length (d :: rest))) with (ds := d :: rest)
    as (gs & g & Hg & Hgs & Hlen & Hcat); [subst n; cbn; lia|done..|].
  exists ([a; b; c] :: gs), g.
  unfold not_comma in Ha, Hb, Hc. apply negb_true_iff in Ha, Hb, Hc.
  cbn [comma_groups]. rewrite Ha, Hb, Hc, Ascii.eqb_refl, Hg.
  repeat split; [by constructor|lia|lia|].
  cbn. by rewrite Hcat.
Qed.

End ScriptFacts.

Import Observations Script ScriptFacts.

(** X13: whatever value [json.load] returned, a [clean_messages] that
    returns has gone through objects only, and returns objects only: one for
    each item with a content that is not the empty string, each without a
    numeric [timestamp]. *)
Theorem cleaned_document_holds_clean_objects doc out :
  clean_messages_any doc = Done out →
  ∃ items,
    iter_items doc = Some items
    ∧ Forall (λ item, ∃ d, item = VDict d) items
    ∧ Forall clean_object out
    ∧ List.length out = List.length (List.filter object_with_content items).
Proof.
  unfold clean_messages_any.
  destruct (iter_items doc) as [items|]; [|discriminate].
  destruct (clean_items items []) as [out'|e] eqn:Hrun; [|discriminate].
  intros [= <-]. exists items. split; [done|].
  destruct (clean_items_objects _ _ _ Hrun) as [msgs ->].
  pose proof (clean_items_dicts msgs []) as Hdicts.
  cbn [fmap list_fmap] in Hdicts. rewrite Hrun in Hdicts.
  destruct (clean_loop msgs []) as [cleaned|] eqn:Hloop; [|discriminate].
  injection Hdicts as ->.
  split; [|split].
  - apply Forall_fmap, Forall_true. intros d. by exists d.
  - pose proof (cleaned_output_shape msgs cleaned Hloop) as Hshape.
    apply Forall_fmap. eapply List.Forall_impl; [|exact Hshape].
    intros d [Hs Hts]. split.
    + rewrite survives_has_content in Hs. exact Hs.
    + intros d' v [= <-]. apply Hts.
  - rewrite filter_object_with_content, !length_fmap.
    destruct (output_length msgs cleaned Hloop) as [Hlen _]. rewrite Hlen.
    f_equal. apply List.filter_ext, survives_has_content.
Qed.

Lemma cleaned_document_holds_clean_objects_witness :
  clean_messages_any
    (VList [VDict scenario_1; VDict scenario_3; VDict scenario_4])
  = Done [VDict scenario_1_cleaned; VDict scenario_4]
  ∧ ∃ items,
      iter_items (VList [VDict scenario_1; VDict scenario_3; VDict scenario_4])
      = Some items
      ∧ Forall (λ item, ∃ d, item = VDict d) items
      ∧ Forall clean_object [VDict scenario_1_cleaned; VDict scenario_4]
      ∧ List.length [VDict scenario_1_cleaned; VDict scenario_4]
        = List.length (List.filter object_with_content items).
Proof.
  split; [reflexivity|].
  apply (cleaned_document_holds_clean_objects
           (VList [VDict scenario_1; VDict scenario_3; VDict scenario_4])).
  reflexivity.
Defined.

(** X14: a document that is not an array is not rejected as such: an empty
    object and an empty string give an empty output, a non-empty object or
    string raises [AttributeError] on its first key or character, and a
    number, a boolean or null raises [TypeError]. *)
Theorem non_array_document doc :
  (∀ l, doc ≠ VList l) →
  clean_messages_any doc
  = match doc with
    | VDict d =>
        if Nat.eqb (size d) 0 then Done []
        else Failed (Cleaning AttributeError)
    | VStr s =>
        if String.eqb s "" then Done []
        else Failed (Cleaning AttributeError)
    | _ => Failed TypeError
    end.
Proof.
  intros Hdoc. unfold clean_messages_any.
  destruct doc as [| | | |s|l|d]; cbn [iter_items]; try done.
  - destruct s as [|c s]; done.
  - by destruct (Hdoc l).
  - rewrite <- length_map_to_list.
    by destruct (map_to_list d) as [|[k v] kvs].
Qed.

Lemma non_array_document_witness :
  (∀ l, VDict scenario_4 ≠ VList l)
  ∧ clean_messages_any (VDict scenario_4)
    = if Nat.eqb (size scenario_4) 0 then Done []
      else Failed (Cleaning AttributeError).
Proof.
  split; [discriminate|].
  apply (non_array_document (VDict scenario_4)). discriminate.
Defined.

(** X15: an array with an element that is not an object, such as a number,
    a string or null, always makes the run raise: such an element has no
    [get], and is not skipped. *)
Theorem non_object_element_fails items :
  Exists (λ v, ∀ d, v ≠ VDict d) items →
  ∃ e, clean_messages_any (VList items) = Failed (Cleaning e).
Proof.
  intros [e He]%(clean_items_non_object items []).
  exists e. unfold clean_messages_any. cbn [iter_items]. by rewrite He.
Qed.

Lemma non_object_element_fails_witness :
  Exists (λ v, ∀ d, v ≠ VDict d) [VDict scenario_1; VNone]
  ∧ ∃ e, clean_messages_any (VList [VDict scenario_1; VNone])
         = Failed (Cleaning e).
Proof.
  assert (Exists (λ v, ∀ d, v ≠ VDict d) [VDict scenario_1; VNone]) as H.
  { apply Exists_cons_tl, Exists_cons_hd. discriminate. }
  split; [exact H|]. exact (non_object_element_fails _ H).
Defined.

(** X16: whatever the host answers, [main] writes at most once, only to
    [OUTPUT_FILE], which is never [INPUT_FILE], and only the cleaned list of
    the document it has loaded: a write is the third call of the run, after
    the existence check of [INPUT_FILE] answered true and the load of
    [INPUT_FILE], and is followed by no other write.  When the existence
    check answers false or raises, when loading raises, or when cleaning
    raises, nothing is written. *)
Theorem main_writes_once_the_cleaned_list file h :
  let trace := (run_main file h).1 in
  (List.length (List.filter is_dump trace) ≤ 1)%nat
  ∧ (∀ p v completed,
       In (Dump_called p v completed) trace →
       p = OUTPUT_FILE file ∧ p ≠ INPUT_FILE file
       ∧ ∃ doc out rest,
           trace = Exists_called (INPUT_FILE file) (Some true)
                   :: Load_called (INPUT_FILE file) (Some doc)
                   :: Dump_called p v completed :: rest
           ∧ List.filter is_dump rest = []
           ∧ clean_messages_any doc = Done out
           ∧ v = VList out)
  ∧ (path_exists h (INPUT_FILE file) ≠ Some true →
     List.filter is_dump trace = [])
  ∧ (json_load h (INPUT_FILE file) = None → List.filter is_dump trace = [])
  ∧ (∀ doc e, json_load h (INPUT_FILE file) = Some doc →
              clean_messages_any doc = Failed e →
              List.filter is_dump trace = []).
Proof.
  cbv zeta. rewrite run_main_cases.
  pose proof (output_is_not_input file) as Hne.
  destruct (path_exists h (INPUT_FILE file)) as [[|]|];
    [destruct (json_load h (INPUT_FILE file)) as [doc|];
     [destruct (clean_messages_any doc) as [out|e] eqn:Hclean;
      [destruct (json_dump h (OUTPUT_FILE file) (VList out))|]|]|..];
    cbn [fst List.filter is_dump List.length].
  all: split; [lia|].
  all: split;
    [intros p v c Hin; cbn [In] in Hin;
     repeat (destruct Hin as [Hin|Hin]; [try discriminate Hin|]);
     try done;
     injection Hin as <- <- <-;
     (split; [done|]); (split; [done|]);
     eexists doc, out, _; (split; [reflexivity|]); by repeat split|].
  all: split; [try done; by intros []|].
  all: split; [try done|].
  all: try done.
  all: try (intros doc' e' [= <-]; congruence).
  all: intros doc' e' [=].
Qed.

(** X17: a run of [main] that ends normally has found the input, loaded it,
    cleaned it without exception, written the cleaned list and printed one
    line, in this order and nothing else; the line gives the number of
    records written. *)
Theorem normal_run_of_main file h :
  (run_main file h).2 = Done tt →
  ∃ doc out,
    clean_messages_any doc = Done out
    ∧ (run_main file h).1
      = [Exists_called (INPUT_FILE file) (Some true);
         Load_called (INPUT_FILE file) (Some doc);
         Dump_called (OUTPUT_FILE file) (VList out) true;
         Printed (summary file out) true]
    ∧ ∃ count,
        summary file out
        = ("Wrote " ++ count
           ++ " cleaned messages to parsed_conversations_cleaned.json")%string
        ∧ read_thousands count = Some (N.of_nat (List.length out)).
Proof.
  rewrite run_main_cases.
  destruct (path_exists h (INPUT_FILE file)) as [[|]|]; [|discriminate..].
  destruct (json_load h (INPUT_FILE file)) as [doc|]; [|discriminate].
  destruct (clean_messages_any doc) as [out|e] eqn:Hclean; [|discriminate].
  destruct (json_dump h (OUTPUT_FILE file) (VList out)); [|discriminate].
  destruct (print_line h (summary file out)); [|discriminate].
  intros _. exists doc, out. split; [done|]. split; [done|].
  exists (format_thousands (List.length out)). split; [done|].
  apply read_format_thousands.
Qed.

Lemma normal_run_of_main_witness :
  (run_main sample_file
     (sample_host (VList [VDict scenario_1; VDict scenario_3]))).2 = Done tt
  ∧ ∃ doc out,
      clean_messages_any doc = Done out
      ∧ (run_main sample_file
           (sample_host (VList [VDict scenario_1; VDict scenario_3]))).1
        = [Exists_called (INPUT_FILE sample_file) (Some true);
           Load_called (INPUT_FILE sample_file) (Some doc);
           Dump_called (OUTPUT_FILE sample_file) (VList out) true;
           Printed (summary sample_file out) true]
      ∧ ∃ count,
          summary sample_file out
          = ("Wrote " ++ count
             ++ " cleaned messages to parsed_conversations_cleaned.json")%string
          ∧ read_thousands count = Some (N.of_nat (List.length out)).
Proof.
  split; [reflexivity|].
  apply (normal_run_of_main sample_file
           (sample_host (VList [VDict scenario_1; VDict scenario_3]))).
  reflexivity.
Defined.

(** X18: a run of [main] that raises has completed no [print], and has
    completed a write only when it is the [print] after it that raised; when
    [exists] answers that there is no input file, the run raises
    [FileNotFoundError] with the path of the input in its message, after
    that one call. *)
Theorem failed_run_of_main file h e :
  (run_main file h).2 = Failed e →
  (∀ line, ¬ In (Printed line true) (run_main file h).1)
  ∧ (∀ p v, In (Dump_called p v true) (run_main file h).1 →
            ∃ line, In (Printed line false) (run_main file h).1)
  ∧ (path_exists h (INPUT_FILE file) = Some false →
     (run_main file h).1 = [Exists_called (INPUT_FILE file) (Some false)]
     ∧ e = FileNotFoundError
             ("Input file not found: " ++ path_text (INPUT_FILE file))).
Proof.
  rewrite run_main_cases.
  destruct (path_exists h (INPUT_FILE file)) as [[|]|];
    [destruct (json_load h (INPUT_FILE file)) as [doc|];
     [destruct (clean_messages_any doc) as [out|e'] eqn:Hclean;
      [destruct (json_dump h (OUTPUT_FILE file) (VList out));
       [destruct (print_line h (summary file out))|]|]|]|..];
    cbn [fst snd]; try discriminate;
    intros [= <-]; (split; [|split; [|done]]).
  all: try (intros line Hin; cbn [In] in Hin;
            repeat (destruct Hin as [Hin|Hin]; [discriminate Hin|]); done).
  all: intros p v Hin; cbn [In] in Hin.
  all: try (repeat (destruct Hin as [Hin|Hin]; [discriminate Hin|]); done).
  exists (summary file out). cbn [In]. auto.
Qed.

Lemma failed_run_of_main_witness :
  (run_main sample_file empty_host).2
  = Failed (FileNotFoundError
      "Input file not found: /home/user/Desktop/parsed_conversations.json")
  ∧ (run_main sample_file empty_host).1
    = [Exists_called (INPUT_FILE sample_file) (Some false)].
Proof.
  split; [reflexivity|].
  apply (failed_run_of_main sample_file empty_host
           (FileNotFoundError
              "Input file not found: /home/user/Desktop/parsed_conversations.json"));
    reflexivity.
Defined.

(** X19: the count of the summary line is the decimal number with a comma
    before every group of three digits counted from the right: cut at the
    commas and read from the right, the text is groups of exactly three
    digits and a last group of one to three, and without the commas it is
    [str(n)]. *)
Theorem thousands_are_grouped_by_three n :
  ∃ gs g,
    comma_groups (rev (list_ascii_of_string (format_thousands n))) = gs ++ [g]
    ∧ Forall (λ x, List.length x = 3%nat) gs
    ∧ (1 ≤ List.length g ≤ 3)%nat
    ∧ string_of_list_ascii (rev (concat (gs ++ [g]))) = str_of_nat n
    ∧ read_thousands (format_thousands n) = Some (N.of_nat n).
Proof.
  unfold format_thousands.
  rewrite list_ascii_of_string_of_list_ascii, rev_involutive.
  pose proof (str_of_nat_not_comma n) as Hds.
  destruct (comma_groups_group3 (rev (list_ascii_of_string (str_of_nat n))))
    as (gs & g & Hg & Hgs & Hlen & Hcat).
  - intros Hnil. apply (f_equal (@rev ascii)) in Hnil.
    rewrite rev_involutive in Hnil. cbn in Hnil.
    apply (f_equal string_of_list_ascii) in Hnil.
    rewrite string_of_list_ascii_of_string in Hnil.
    unfold str_of_nat, NilZero.string_of_uint in Hnil.
    destruct (N.to_uint (N.of_nat n)); discriminate.
  - by apply Forall_rev.
  - exists gs, g. repeat split; try done; try lia.
    + by rewrite Hcat, rev_involutive, string_of_list_ascii_of_string.
    + apply read_format_thousands.
Qed.
